(** * Voting ledger client (src/src/app.ts): a shallow embedding

    The client evaluates and submits transactions of the asset contract of a
    Fabric network and tallies votes on top of it: an asset's [Owner] is the
    candidate and its [Size] the count.  This file embeds the functions of
    app.ts and proves the properties of the specification about them.

    Conventions.
    - A JavaScript string is a [string] (a sequence of code units).
    - A JavaScript number is an integer [Z].  The model of numbers is exact
      on the safe integers, those strictly between -2^53 and 2^53
      ([safe_integer]): there the arithmetic of doubles is exact, adding one
      stays exact, and [toString] prints plain decimal digits.  Larger
      numbers and fractions are outside the model; a value none of whose
      numbers leaves that range is [representable], and a theorem that states
      the digits of a number decoded from the ledger carries that bound as a
      hypothesis.
    - A value decoded by [JSON.parse] is a [jsval].  An object is the list of
      its own properties in the order [for..in] enumerates them.
    - Library code (the gateway, the file system, [JSON.parse], [path.join],
      [Math.random]) is an oracle passed to the functions that call it. *)

From Stdlib Require Import ZArith List String Ascii Bool Lia.
From Stdlib Require Import Numbers.DecimalString Numbers.DecimalPos Numbers.DecimalZ.
Import ListNotations.

Open Scope string_scope.
Open Scope Z_scope.

(** ** JavaScript values and the conversions app.ts relies on *)

Module Js.

#[warnings="-register-all"]
Inductive jsval : Type :=
| JUndefined
| JNull
| JBool (b : bool)
| JNum (n : Z)
| JStr (s : string)
| JArr (elems : list jsval)
| JObj (props : list (string * jsval)).

(** What a [throw] carries. *)
Inductive exn : Type :=
| TypeError
| SyntaxError
| GatewayError (detail : string)
| FsError (detail : string)
| Error (message : string).

Inductive result (A : Type) : Type :=
| Ok (a : A)
| Throw (e : exn).
Arguments Ok {A} a.
Arguments Throw {A} e.

Definition string_of_Z (n : Z) : string := NilZero.string_of_int (Z.to_int n).

(** Own property lookup, [None] when the object has no such property. *)
Fixpoint own_prop (props : list (string * jsval)) (k : string) : option jsval :=
  match props with
  | [] => None
  | (k', v) :: rest => if String.eqb k' k then Some v else own_prop rest k
  end.

Definition has_own (props : list (string * jsval)) (k : string) : bool :=
  match own_prop props k with Some _ => true | None => false end.

(** [v.k] for a field name [k] that no prototype defines ([Owner], [Size],
    [ID], [Color], [AppraisedValue]): reading a property of [undefined] or
    [null] throws, a missing property reads as [undefined]. *)
Definition get_field (v : jsval) (k : string) : result jsval :=
  match v with
  | JUndefined | JNull => Throw TypeError
  | JObj props =>
      match own_prop props k with Some x => Ok x | None => Ok JUndefined end
  | _ => Ok JUndefined
  end.

(** The abstract operation ToString on a decoded value.  A number prints as
    its decimal digits, which is what the code prints for a safe integer (the
    exponent form from 10^21 on and the rounding beyond 2^53 are not
    modelled).  An array joins its
    elements with commas, [undefined] and [null] elements printing as the empty
    string.  A plain object prints as [[object Object]]; one that carries an
    own property [toString] (never callable in decoded JSON) has no primitive
    value, and the conversion throws. *)
Fixpoint ToString (v : jsval) : result string :=
  match v with
  | JUndefined => Ok "undefined"
  | JNull => Ok "null"
  | JBool true => Ok "true"
  | JBool false => Ok "false"
  | JNum n => Ok (string_of_Z n)
  | JStr s => Ok s
  | JArr elems =>
      (fix join (l : list jsval) : result string :=
         match l with
         | [] => Ok ""
         | x :: rest =>
             let sx := match x with
                       | JUndefined | JNull => Ok ""
                       | _ => ToString x
                       end in
             match sx with
             | Throw e => Throw e
             | Ok a =>
                 match rest with
                 | [] => Ok a
                 | _ :: _ =>
                     match join rest with
                     | Throw e => Throw e
                     | Ok b => Ok (a ++ "," ++ b)
                     end
                 end
             end
         end) elems
  | JObj props =>
      if has_own props "toString" then Throw TypeError
      else Ok "[object Object]"
  end.

(** The method call [v.toString()]. *)
Definition toString (v : jsval) : result string :=
  match v with
  | JUndefined | JNull => Throw TypeError
  | _ => ToString v
  end.

(** [(v + 1).toString()]: when [v] is a string, or converts to one (arrays and
    objects), [+] concatenates; otherwise it adds numbers, [undefined]
    counting as NaN, [null] and [false] as 0, [true] as 1.  For a number [n]
    the sum is the exact [n + 1], which is what a double gives for a safe
    integer [n]. *)
Definition plus_one_toString (v : jsval) : result string :=
  match v with
  | JUndefined => Ok "NaN"
  | JNull => Ok "1"
  | JBool true => Ok "2"
  | JBool false => Ok "1"
  | JNum n => Ok (string_of_Z (n + 1))
  | JStr s => Ok (s ++ "1")
  | JArr _ | JObj _ =>
      match ToString v with
      | Throw e => Throw e
      | Ok s => Ok (s ++ "1")
      end
  end.

(** [String.prototype.indexOf]: the least position at which [search] occurs
    in [s], or -1. *)
Fixpoint indexOf_from (s search : string) (k : Z) : Z :=
  if String.prefix search s then k
  else match s with
       | EmptyString => -1
       | String _ s' => indexOf_from s' search (k + 1)
       end.

Definition indexOf (s search : string) : Z := indexOf_from s search 0.

(** [String.prototype.substring(n)] with one argument. *)
Fixpoint substring_from (n : nat) (s : string) : string :=
  match n, s with
  | O, _ => s
  | S n', String _ s' => substring_from n' s'
  | S _, EmptyString => EmptyString
  end.

Definition jsval_is_string (v : jsval) (s : string) : bool :=
  match v with JStr s' => String.eqb s' s | _ => false end.

(** [Array.prototype.indexOf(search) != -1] for a string [search]: strict
    equality with some element. *)
Definition array_includes (elems : list jsval) (search : string) : bool :=
  existsb (fun x => jsval_is_string x search) elems.

(** [owner.indexOf(name) != -1] on a value that was not converted first:
    strings search for a substring, arrays for an element, and every other
    value has no callable [indexOf]. *)
Definition indexOf_found (owner : jsval) (name : string) : result bool :=
  match owner with
  | JStr s => Ok (negb (indexOf s name =? -1))
  | JArr elems => Ok (array_includes elems name)
  | _ => Throw TypeError
  end.

(** One-character strings of a string, with their indices from [i]. *)
Fixpoint string_entries (i : Z) (s : string) : list (string * jsval) :=
  match s with
  | EmptyString => []
  | String c s' =>
      (string_of_Z i, JStr (String c EmptyString)) :: string_entries (i + 1) s'
  end.

Fixpoint array_entries (i : Z) (l : list jsval) : list (string * jsval) :=
  match l with
  | [] => []
  | x :: rest => (string_of_Z i, x) :: array_entries (i + 1) rest
  end.

(** [for (const key in v)] paired with [v[key]]: the indices of an array or of
    a string, the own properties of an object, nothing for other values. *)
Definition for_in (v : jsval) : list (string * jsval) :=
  match v with
  | JArr elems => array_entries 0 elems
  | JObj props => props
  | JStr s => string_entries 0 s
  | _ => []
  end.

End Js.

Import Js.

(** ** The options handed to [connect] *)

(** The options of one gRPC call, and the four option functions [main] hands
    to [connect]; [now] is the value of [Date.now()], in milliseconds, when
    the gateway asks for the options of a call. *)
Record CallOptions : Type := { deadline : Z }.

Record ConnectOptions : Type := {
  evaluateOptions : Z -> CallOptions;
  endorseOptions : Z -> CallOptions;
  submitOptions : Z -> CallOptions;
  commitStatusOptions : Z -> CallOptions
}.

Definition connect_options : ConnectOptions := {|
  evaluateOptions := fun now => {| deadline := now + 5000 |};
  endorseOptions := fun now => {| deadline := now + 15000 |};
  submitOptions := fun now => {| deadline := now + 5000 |};
  commitStatusOptions := fun now => {| deadline := now + 60000 |}
|}.

(** ** Effects: the log, the gateway and the mutable [assetId] *)

(** The line feed that opens the banner of each operation. *)
Definition nl : string := String (ascii_of_nat 10) EmptyString.

(** An argument of [console.log] or [console.error]. *)
Inductive logarg : Type :=
| LStr (s : string)
| LExn (e : exn)
| LVal (v : jsval).

(** What an operation does that the outside can observe, in order.
    [ConnectGateway] is the call of [connect] with the option functions it is
    given; [CloseGateway] and [CloseClient] stand for [gateway.close()] and
    [client.close()] of the gateway API. *)
Inductive event : Type :=
| Log (args : list logarg)
| Evaluate (fn : string)
| Submit (fn : string) (args : list string)
| OpenClient (endpoint : string)
| ConnectGateway (options : ConnectOptions)
| CloseGateway
| CloseClient.

(** The contract, the decoder and the random source seen by one operation.
    [evaluateTransaction] and [submitTransaction] answer or throw;
    [JSON_parse] is [JSON.parse(utf8Decoder.decode(bytes))];
    [random_draw k] is the value of the k-th
    [Math.floor(Math.random() * 10000000000)]. *)
Record World : Type := {
  evaluateTransaction : string -> result string;
  JSON_parse : string -> result jsval;
  submitTransaction : string -> list string -> result unit;
  random_draw : nat -> Z
}.

(** The module variable [assetId], the number of random draws so far, and the
    events so far. *)
Record State : Type := {
  assetId : string;
  draws : nat;
  trace : list event
}.

Definition M (A : Type) : Type := State -> State * result A.

Definition ret {A} (a : A) : M A := fun st => (st, Ok a).

Definition bind {A B} (m : M A) (k : A -> M B) : M B :=
  fun st =>
    match m st with
    | (st', Ok a) => k a st'
    | (st', Throw e) => (st', Throw e)
    end.

Declare Scope js_scope.
Delimit Scope js_scope with js.
Notation "x <- m ;; k" := (bind m (fun x => k))
  (at level 61, m at next level, right associativity) : js_scope.
Notation "m ;;; k" := (bind m (fun _ => k))
  (at level 61, right associativity) : js_scope.
Open Scope js_scope.

Definition lift {A} (r : result A) : M A := fun st => (st, r).

Definition emit (e : event) : M unit :=
  fun st => ({| assetId := assetId st; draws := draws st;
                trace := trace st ++ [e] |}, Ok tt).

Definition console_log (args : list logarg) : M unit := emit (Log args).

(** [try { m } catch (error) { h error }] *)
Definition try_catch {A} (m : M A) (h : exn -> M A) : M A :=
  fun st =>
    match m st with
    | (st', Ok a) => (st', Ok a)
    | (st', Throw e) => h e st'
    end.

Definition contract_evaluateTransaction (w : World) (fn : string) : M string :=
  emit (Evaluate fn) ;;; lift (evaluateTransaction w fn).

Definition contract_submitTransaction (w : World) (fn : string)
    (args : list string) : M unit :=
  emit (Submit fn args) ;;; lift (submitTransaction w fn args).

(** [assetId = `asset${String(Math.floor(Math.random() * 10000000000))}`] *)
Definition new_assetId (w : World) : M unit :=
  fun st => ({| assetId := "asset" ++ string_of_Z (random_draw w (draws st));
                draws := S (draws st);
                trace := trace st |}, Ok tt).

Definition get_assetId : M string := fun st => (st, Ok (assetId st)).

(** ** The operations of app.ts *)

(** [initLedger]: three [CreateAsset] submissions, each under its own
    [try]/[catch] that logs the error and goes on. *)
Definition seed (w : World) (size owner : string) : M unit :=
  new_assetId w ;;;
  id <- get_assetId ;;
  try_catch
    (contract_submitTransaction w "CreateAsset" [id; ""; size; owner; ""])
    (fun error =>
       console_log [LExn error] ;;;
       console_log [LStr (owner ++ " already created")]).

Definition initLedger (w : World) : M unit :=
  console_log [LStr (nl ++ "--> Submit Transaction: InitLedger, function creates the initial set of assets on the ledger")] ;;;
  seed w "1" "Tom" ;;;
  seed w "2" "Cat" ;;;
  seed w "2" "Dog" ;;;
  console_log [LStr "*** Transaction committed successfully"].

(** [getAllAssets] *)
Definition getAllAssets (w : World) : M unit :=
  console_log [LStr (nl ++ "--> Evaluate Transaction: GetAllAssets, function returns all the current assets on the ledger")] ;;;
  resultBytes <- contract_evaluateTransaction w "GetAllAssets" ;;
  result <- lift (JSON_parse w resultBytes) ;;
  console_log [LStr "*** Result:"; LVal result].

(** The locals [exists], [size] and [assetIdIfExists] of
    [createAssetWithName]. *)
Record found : Type := {
  exists_ : bool;
  size : string;
  assetIdIfExists : string
}.

Definition rbind {A B} (r : result A) (k : A -> result B) : result B :=
  match r with
  | Ok a => k a
  | Throw e => Throw e
  end.

(** The loop of [createAssetWithName] over the entries [for..in] delivers:
<<
    const owner: string = result[key].Owner.toString();
    if (owner.indexOf(name) != -1) {
        size = (result[key].Size + 1).toString();
        assetIdIfExists = result[key].ID.toString();
        exists = true;
        break;
    }
>> *)
Fixpoint vote_scan (entries : list (string * jsval)) (name : string)
    : result found :=
  match entries with
  | [] => Ok {| exists_ := false; size := ""; assetIdIfExists := "" |}
  | (key, record) :: rest =>
      rbind (get_field record "Owner") (fun o =>
      rbind (toString o) (fun owner =>
      if negb (indexOf owner name =? -1) then
        rbind (get_field record "Size") (fun sz =>
        rbind (plus_one_toString sz) (fun size' =>
        rbind (get_field record "ID") (fun i =>
        rbind (toString i) (fun id =>
        Ok {| exists_ := true; size := size'; assetIdIfExists := id |}))))
      else vote_scan rest name))
  end.

(** [createAssetWithName]: evaluate, decode, scan, then one submission. *)
Definition createAssetWithName (w : World) (name : string) : M unit :=
  console_log [LStr (nl ++ "--> Submit Transaction: CreateAsset, creates new asset with ID, Color, Size, Owner and AppraisedValue arguments")] ;;;
  resultBytes <- contract_evaluateTransaction w "GetAllAssets" ;;
  result <- lift (JSON_parse w resultBytes) ;;
  f <- lift (vote_scan (for_in result) name) ;;
  if exists_ f then
    contract_submitTransaction w "UpdateAsset"
      [assetIdIfExists f; ""; size f; name; ""] ;;;
    console_log [LStr "*** Transaction committed successfully - update"]
  else
    new_assetId w ;;;
    id <- get_assetId ;;
    contract_submitTransaction w "CreateAsset" [id; ""; "1"; name; ""] ;;;
    console_log [LStr "*** Transaction committed successfully - creation"].

(** The line [readAssetByName] prints for a match:
    ['Query Result: ' + AppraisedValue + ' ' + Color + ' ' + ID + ' ' + Owner
     + ' ' + Size]. *)
Definition query_result_line (record : jsval) : result string :=
  let field k := rbind (get_field record k) ToString in
  rbind (field "AppraisedValue") (fun a =>
  rbind (field "Color") (fun c =>
  rbind (field "ID") (fun i =>
  rbind (field "Owner") (fun o =>
  rbind (field "Size") (fun s =>
  Ok ("Query Result: " ++ a ++ " " ++ c ++ " " ++ i ++ " " ++ o ++ " " ++ s)))))).

(** The loop of [readAssetByName]: every visited entry is logged as
    [`${key} : ${result[key].Owner}`]; the first one whose [Owner] has
    [indexOf(name) != -1] is printed and ends the loop. *)
Fixpoint query_scan (entries : list (string * jsval)) (name : string)
    : M unit :=
  match entries with
  | [] => ret tt
  | (key, record) :: rest =>
      o <- lift (get_field record "Owner") ;;
      shown <- lift (ToString o) ;;
      console_log [LStr (key ++ " : " ++ shown)] ;;;
      hit <- lift (indexOf_found o name) ;;
      if (hit : bool) then
        line <- lift (query_result_line record) ;;
        console_log [LStr line]
      else query_scan rest name
  end.

Definition readAssetByName (w : World) (name : string) : M unit :=
  console_log [LStr (nl ++ "--> Evaluate Transaction: ReadAsset, function returns asset attributes")] ;;;
  resultBytes <- contract_evaluateTransaction w "GetAllAssets" ;;
  result <- lift (JSON_parse w resultBytes) ;;
  query_scan (for_in result) name.

(** ** Start-up: configuration, credentials, connection *)

(** [process.env[key] || defaultValue]: an unset or empty variable gives the
    default. *)
Definition envOrDefault (env : string -> option string)
    (key defaultValue : string) : string :=
  match env key with
  | Some v => if String.eqb v "" then defaultValue else v
  | None => defaultValue
  end.

(** The module constants of app.ts, once resolved. *)
Record Config : Type := {
  channelName : string;
  chaincodeName : string;
  mspId : string;
  cryptoPath : string;
  keyDirectoryPath : string;
  certDirectoryPath : string;
  tlsCertPath : string;
  peerEndpoint : string;
  peerHostAlias : string
}.

(** The four kinds of operation [main] dispatches to. *)
Inductive op : Type := OpQuery | OpVote | OpGetAll | OpInit.

(** The file system, the key and certificate parsers, and the world each
    started operation runs in ([task_world i o]: the operation [o] started for
    [process.argv[i]]). *)
Record Host : Type := {
  fs_readFile : string -> result string;
  fs_readdir : string -> result (list string);
  path_join : string -> string -> string;
  createSsl : string -> result unit;
  createPrivateKey : string -> result unit;
  task_world : nat -> op -> World
}.

(** [getFirstDirFileName]: [files[0]] is [undefined] for an empty listing, and
    [!file] also holds for the empty string. *)
Definition getFirstDirFileName (h : Host) (dirPath : string) : M string :=
  files <- lift (fs_readdir h dirPath) ;;
  match files with
  | [] => lift (Throw (Error ("No files in directory: " ++ dirPath)))
  | file :: _ =>
      if String.eqb file ""
      then lift (Throw (Error ("No files in directory: " ++ dirPath)))
      else ret (path_join h dirPath file)
  end.

Definition newGrpcConnection (h : Host) (cfg : Config) : M unit :=
  tlsRootCert <- lift (fs_readFile h (tlsCertPath cfg)) ;;
  lift (createSsl h tlsRootCert) ;;;
  emit (OpenClient (peerEndpoint cfg)).

Definition newIdentity (h : Host) (cfg : Config) : M (string * string) :=
  certPath <- getFirstDirFileName h (certDirectoryPath cfg) ;;
  credentials <- lift (fs_readFile h certPath) ;;
  ret (mspId cfg, credentials).

Definition newSigner (h : Host) (cfg : Config) : M unit :=
  keyPath <- getFirstDirFileName h (keyDirectoryPath cfg) ;;
  privateKeyPem <- lift (fs_readFile h keyPath) ;;
  lift (createPrivateKey h privateKeyPem).

Definition displayInputParameters (cfg : Config) : M unit :=
  console_log [LStr ("channelName:       " ++ channelName cfg)] ;;;
  console_log [LStr ("chaincodeName:     " ++ chaincodeName cfg)] ;;;
  console_log [LStr ("mspId:             " ++ mspId cfg)] ;;;
  console_log [LStr ("cryptoPath:        " ++ cryptoPath cfg)] ;;;
  console_log [LStr ("keyDirectoryPath:  " ++ keyDirectoryPath cfg)] ;;;
  console_log [LStr ("certDirectoryPath: " ++ certDirectoryPath cfg)] ;;;
  console_log [LStr ("tlsCertPath:       " ++ tlsCertPath cfg)] ;;;
  console_log [LStr ("peerEndpoint:      " ++ peerEndpoint cfg)] ;;;
  console_log [LStr ("peerHostAlias:     " ++ peerHostAlias cfg)].

(** ** [main] and the promises it starts *)

(** A promise nobody awaits: where it was started, what it did, how it
    settled.  The events of a task are kept per task; how the runtime
    interleaves the tasks is not modelled.  Each task is followed to its end:
    a runtime that ends the process at the first unhandled rejection cuts the
    other tasks short, so the events of the tasks of a run are an upper bound
    of what such a run does. *)
Inductive task_kind : Type := Callback | Started (o : op).

Record task : Type := {
  task_index : nat;
  task_kind_of : task_kind;
  task_state : State;
  task_outcome : result unit
}.

Definition spawn (i : nat) (k : task_kind) (st0 : State) (m : M unit) : task :=
  let '(st, r) := m st0 in
  {| task_index := i; task_kind_of := k; task_state := st; task_outcome := r |}.

Definition contains (val s : string) : bool := negb (indexOf val s =? -1).

Definition when (b : bool) (m : M unit) : M unit := if b then m else ret tt.

(** The body of the [async] callback of [process.argv.forEach]: the two
    awaited operations run in the callback's own promise, in sequence. *)
Definition callback_body (h : Host) (i : nat) (val : string) : M unit :=
  when (contains val "query=") (console_log [LStr val]) ;;;
  when (contains val "vote=") (console_log [LStr val]) ;;;
  when (contains val "getAllVotes=true") (getAllAssets (task_world h i OpGetAll)) ;;;
  when (contains val "initialize=true") (initLedger (task_world h i OpInit)).

(** The promises one call of the callback leaves behind: [readAssetByName]
    and [createAssetWithName] are called without [await], and [forEach] drops
    the promise of the callback itself. *)
Definition callback (h : Host) (st0 : State) (i : nat) (val : string)
    : list task :=
  (if contains val "query="
   then [spawn i (Started OpQuery) st0
           (readAssetByName (task_world h i OpQuery) (substring_from 6 val))]
   else []) ++
  (if contains val "vote="
   then [spawn i (Started OpVote) st0
           (createAssetWithName (task_world h i OpVote) (substring_from 5 val))]
   else []) ++
  [spawn i Callback st0 (callback_body h i val)].

Fixpoint forEach (h : Host) (st0 : State) (i : nat) (argv : list string)
    : list task :=
  match argv with
  | [] => []
  | val :: rest => callback h st0 i val ++ forEach h st0 (S i) rest
  end.

(** [try { m } finally { fin }] *)
Definition try_finally {A} (m : M A) (fin : M unit) : M A :=
  fun st =>
    match m st with
    | (st', r) =>
        match fin st' with
        | (st'', Ok _) => (st'', r)
        | (st'', Throw e) => (st'', Throw e)
        end
    end.

(** The state in which [main] starts the operations. *)
Definition fresh (st : State) : State :=
  {| assetId := assetId st; draws := draws st; trace := [] |}.

(** [main]: its own promise settles as soon as [forEach] has started the
    callbacks; the [finally] block of the source is empty. *)
Definition main (h : Host) (cfg : Config) (argv : list string)
    : M (list task) :=
  displayInputParameters cfg ;;;
  newGrpcConnection h cfg ;;;
  identity <- newIdentity h cfg ;;
  signer <- newSigner h cfg ;;
  emit (ConnectGateway connect_options) ;;;
  try_finally
    (fun st => (st, Ok (forEach h (fresh st) 0 argv)))
    (ret tt).

(** The program: [main().catch(error => { console.error(...);
    process.exitCode = 1 })].  [exitCode] is [None] while the program has not
    assigned [process.exitCode]. *)
Record process : Type := {
  main_state : State;
  tasks : list task;
  console_error : list (list logarg);
  exitCode : option Z
}.

Definition program (h : Host) (cfg : Config) (argv : list string)
    (st0 : State) : process :=
  match main h cfg argv st0 with
  | (st, Ok ts) =>
      {| main_state := st; tasks := ts; console_error := []; exitCode := None |}
  | (st, Throw error) =>
      {| main_state := st; tasks := [];
         console_error :=
           [[LStr "******** FAILED to run the application:"; LExn error]];
         exitCode := Some 1 |}
  end.

(** The promises that rejected with nobody to catch the rejection. *)
Definition unhandled_rejections (p : process) : list task :=
  filter (fun t => match task_outcome t with Throw _ => true | Ok _ => false end)
         (tasks p).

(** The events of a whole run: those of [main], then those of every task. *)
Definition all_events (p : process) : list event :=
  trace (main_state p) ++ flat_map (fun t => trace (task_state t)) (tasks p).



(** ** Reading a run *)

(** The events an operation adds to the trace of the state it starts from. *)
Definition events_of {A} (m : M A) (st : State) : list event :=
  skipn (List.length (trace st)) (trace (fst (m st))).

Definition outcome_of {A} (m : M A) (st : State) : result A := snd (m st).

Definition is_submit (e : event) : bool :=
  match e with Submit _ _ => true | _ => false end.

Definition is_release (e : event) : bool :=
  match e with CloseGateway | CloseClient => true | _ => false end.

(** The transactions an operation submits, in order. *)
Definition submitted {A} (m : M A) (st : State) : list event :=
  filter is_submit (events_of m st).

(** [name] occurs in [s]. *)
Definition is_substring (name s : string) : Prop :=
  exists a b, s = a ++ name ++ b.

(** The [Owner] of a record is the string [o]. *)
Definition owner_of (record : jsval) (o : string) : Prop :=
  get_field record "Owner" = Ok (JStr o).

(** An entry whose owner is a string in which [name] does not occur. *)
Definition no_match (name : string) (entry : string * jsval) : Prop :=
  exists o, owner_of (snd entry) o /\ ~ is_substring name o.

(** [GetAllAssets] answers and its payload decodes to [result]. *)
Definition ledger_returns (w : World) (result : jsval) : Prop :=
  exists bytes,
    evaluateTransaction w "GetAllAssets" = Ok bytes /\
    JSON_parse w bytes = Ok result.

(** The line [readAssetByName] logs for each entry it visits. *)
Definition scan_line (entry : string * jsval) : event :=
  Log [LStr (fst entry ++ " : " ++
             match rbind (get_field (snd entry) "Owner") ToString with
             | Ok s => s
             | Throw _ => ""
             end)].

(** An asset record as the contract serialises it. *)
Definition asset (id color : string) (size : jsval) (owner appraised : string)
    : jsval :=
  JObj [("AppraisedValue", JStr appraised); ("Color", JStr color);
        ("ID", JStr id); ("Owner", JStr owner); ("Size", size)].

(** A world whose ledger holds [result], accepts every submission and draws
    [r] at every random draw. *)
Definition world_of (result : jsval) (r : Z) : World := {|
  evaluateTransaction := fun _ => Ok "payload";
  JSON_parse := fun _ => Ok result;
  submitTransaction := fun _ _ => Ok tt;
  random_draw := fun _ => r
|}.

Definition initial_state : State :=
  {| assetId := "asset0"; draws := 0; trace := [] |}.

(** ** What the operations add to the trace, and sample data *)

(** What one seeding adds to the trace: the submission and, when it throws,
    the two lines of the [catch] block. *)
Definition seed_events (w : World) (id size owner : string) : list event :=
  Submit "CreateAsset" [id; ""; size; owner; ""] ::
  match submitTransaction w "CreateAsset" [id; ""; size; owner; ""] with
  | Ok _ => []
  | Throw e => [Log [LExn e]; Log [LStr (owner ++ " already created")]]
  end.

(** The identifier drawn by the k-th [new_assetId] of a world. *)
Definition drawn (w : World) (k : nat) : string :=
  "asset" ++ string_of_Z (random_draw w k).

(** The first line each operation logs. *)
Definition initLedger_banner : event :=
  Log [LStr (nl ++ "--> Submit Transaction: InitLedger, function creates the initial set of assets on the ledger")].

Definition vote_banner : event :=
  Log [LStr (nl ++ "--> Submit Transaction: CreateAsset, creates new asset with ID, Color, Size, Owner and AppraisedValue arguments")].

(** What a submission adds to the trace, with the line that follows it when it
    commits. *)
Definition submit_events (w : World) (fn : string) (args : list string)
    (done : string) : list event :=
  Submit fn args ::
  match submitTransaction w fn args with
  | Ok _ => [Log [LStr done]]
  | Throw _ => []
  end.

Definition query_banner : event :=
  Log [LStr (nl ++ "--> Evaluate Transaction: ReadAsset, function returns asset attributes")].

(** [st] with the events [l] added to its trace. *)
Definition add_events (st : State) (l : list event) : State :=
  {| assetId := assetId st; draws := draws st; trace := trace st ++ l |}.

(** What the loop logs at the entry that matches: its line, then the record
    (when its five fields print). *)
Definition hit_events (entry : string * jsval) : list event :=
  scan_line entry ::
  match query_result_line (snd entry) with
  | Ok line => [Log [LStr line]]
  | Throw _ => []
  end.

(** Every event [m] adds to the trace satisfies [P]. *)
Definition adds_only {A} (P : event -> Prop) (m : M A) : Prop :=
  forall st,
    exists l, trace (fst (m st)) = (trace st ++ l)%list /\ Forall P l.

(** The configuration of a run with the default names. *)
Definition default_config : Config := {|
  channelName := "mychannel";
  chaincodeName := "basic";
  mspId := "Org1MSP";
  cryptoPath := "/org1";
  keyDirectoryPath := "/org1/keystore";
  certDirectoryPath := "/org1/signcerts";
  tlsCertPath := "/org1/ca.crt";
  peerEndpoint := "localhost:7051";
  peerHostAlias := "peer0.org1.example.com"
|}.

(** A world whose peer cannot be reached: every call of the contract throws. *)
Definition unreachable : World := {|
  evaluateTransaction := fun _ => Throw (GatewayError "UNAVAILABLE");
  JSON_parse := fun _ => Throw SyntaxError;
  submitTransaction := fun _ _ => Throw (GatewayError "UNAVAILABLE");
  random_draw := fun _ => 7
|}.

(** A host whose credential files are in place and whose operations all run
    in the world [w]. *)
Definition host_with (w : World) : Host := {|
  fs_readFile := fun _ => Ok "pem";
  fs_readdir := fun _ => Ok ["user.pem"];
  path_join := fun d f => d ++ "/" ++ f;
  createSsl := fun _ => Ok tt;
  createPrivateKey := fun _ => Ok tt;
  task_world := fun _ _ => w
|}.

(** How a task settled, without its trace. *)
Definition settled (t : task) : nat * task_kind * result unit :=
  (task_index t, task_kind_of t, task_outcome t).

(** Sample records, and two assets whose owners are "Tomas" and "Tom", in
    that order. *)
Definition cat_record : jsval := asset "asset2" "" (JNum 2) "Cat" "".
Definition tom_record : jsval := asset "asset1" "" (JNum 5) "Tom" "".
Definition tomas_record : jsval := asset "asset1" "" (JNum 1) "Tomas" "".
Definition tom4_record : jsval := asset "asset2" "" (JNum 4) "Tom" "".

Definition tomas_then_tom : jsval := JArr [tomas_record; tom4_record].

(** ** The numbers the model is exact on *)

(** The safe integers ([Number.isSafeInteger]): a double holds them exactly,
    their successor is exact too, and they print as plain decimal digits. *)
Definition safe_integer (n : Z) : Prop := - 2 ^ 53 < n < 2 ^ 53.



(** ** Further vocabulary for runs *)

Definition is_evaluate (e : event) : bool :=
  match e with Evaluate _ => true | _ => false end.

Definition is_callback (t : task) : bool :=
  match task_kind_of t with Callback => true | Started _ => false end.

Definition getAllAssets_banner : event :=
  Log [LStr (nl ++ "--> Evaluate Transaction: GetAllAssets, function returns all the current assets on the ledger")].

(** The nine lines of [displayInputParameters]. *)
Definition parameter_lines (cfg : Config) : list event :=
  [Log [LStr ("channelName:       " ++ channelName cfg)];
   Log [LStr ("chaincodeName:     " ++ chaincodeName cfg)];
   Log [LStr ("mspId:             " ++ mspId cfg)];
   Log [LStr ("cryptoPath:        " ++ cryptoPath cfg)];
   Log [LStr ("keyDirectoryPath:  " ++ keyDirectoryPath cfg)];
   Log [LStr ("certDirectoryPath: " ++ certDirectoryPath cfg)];
   Log [LStr ("tlsCertPath:       " ++ tlsCertPath cfg)];
   Log [LStr ("peerEndpoint:      " ++ peerEndpoint cfg)];
   Log [LStr ("peerHostAlias:     " ++ peerHostAlias cfg)]].

(** What [main().catch] prints for the error [e]. *)
Definition failed_line (e : exn) : list logarg :=
  [LStr "******** FAILED to run the application:"; LExn e].

(** A record with a string owner, a string identifier and a numeric size. *)
Definition well_formed (entry : string * jsval) : Prop :=
  exists o id n,
    owner_of (snd entry) o /\
    get_field (snd entry) "ID" = Ok (JStr id) /\
    get_field (snd entry) "Size" = Ok (JNum n).

(** A host like [host_with w] whose file system is [readFile], [readdir] and
    whose key parser is [parseKey]. *)
Definition host_on (readFile : string -> result string)
    (readdir : string -> result (list string))
    (parseKey : string -> result unit) (w : World) : Host := {|
  fs_readFile := readFile;
  fs_readdir := readdir;
  path_join := fun d f => d ++ "/" ++ f;
  createSsl := fun _ => Ok tt;
  createPrivateKey := parseKey;
  task_world := fun _ _ => w
|}.

(** The credentials of a host are in place: the TLS certificate reads and
    parses, and the certificate and key directories each list a first file
    that reads. *)
Record credentials_in_place (h : Host) (cfg : Config) (pem : string) : Prop := {
  tls_reads : exists cert,
    fs_readFile h (tlsCertPath cfg) = Ok cert /\ createSsl h cert = Ok tt;
  cert_listed : exists file rest credentials,
    fs_readdir h (certDirectoryPath cfg) = Ok (file :: rest) /\ file <> "" /\
    fs_readFile h (path_join h (certDirectoryPath cfg) file) = Ok credentials;
  key_listed : exists file rest,
    fs_readdir h (keyDirectoryPath cfg) = Ok (file :: rest) /\ file <> "" /\
    fs_readFile h (path_join h (keyDirectoryPath cfg) file) = Ok pem
}.

(** The owner of an entry is a string in which [name] occurs. *)
Definition has_match (name : string) (entry : string * jsval) : Prop :=
  exists o, owner_of (snd entry) o /\ is_substring name o.

(** The payloads [for..in] finds nothing in: [null], a number, a boolean, the
    empty string, the empty array and the empty object. *)
Definition nothing_to_scan (result : jsval) : Prop :=
  for_in result = [].

(** ** Strings *)

Section Strings.

Lemma prefix_app (a s : string) :
  String.prefix a s = true <-> exists b, s = a ++ b.
Proof.
  revert s; induction a as [|c a IH]; intros s.
  - split; [intros _; exists s; reflexivity | destruct s; reflexivity].
  - destruct s as [|d s]; simpl.
    + split; [discriminate | intros [b Hb]; discriminate].
    + destruct (ascii_dec c d) as [Hcd|Hcd].
      * subst d. rewrite IH.
        split; intros [b Hb]; exists b; [now rewrite Hb | now inversion Hb].
      * split; [discriminate | intros [b Hb]; inversion Hb; congruence].
Qed.

Lemma indexOf_from_eq (s name : string) (k : Z) :
  indexOf_from s name k =
  if String.prefix name s then k
  else match s with
       | EmptyString => -1
       | String _ s' => indexOf_from s' name (k + 1)
       end.
Proof. destruct s; reflexivity. Qed.

Lemma indexOf_from_substring (s name : string) (k : Z) :
  0 <= k -> indexOf_from s name k <> -1 <-> is_substring name s.
Proof.
  revert k; induction s as [|c s IH]; intros k Hk; rewrite indexOf_from_eq.
  - destruct (String.prefix name "") eqn:E.
    + split; [intros _ | intros _; lia].
      apply prefix_app in E. destruct E as [b Hb]. exists "", b. exact Hb.
    + split; [intros H; now elim H|].
      intros [a [b Hab]]. destruct a; simpl in Hab.
      * assert (String.prefix name "" = true) by (apply prefix_app; now exists b).
        congruence.
      * discriminate.
  - destruct (String.prefix name (String c s)) eqn:E.
    + split; [intros _ | intros _; lia].
      apply prefix_app in E. destruct E as [b Hb]. exists "", b. exact Hb.
    + rewrite (IH (k + 1)) by lia. split.
      * intros [a [b Hab]]. exists (String c a), b. simpl. now rewrite Hab.
      * intros [a [b Hab]]. destruct a as [|d a]; simpl in Hab.
        -- assert (String.prefix name (String c s) = true)
             by (apply prefix_app; now exists b).
           congruence.
        -- inversion Hab. now exists a, b.
Qed.

(** [indexOf] finds [name] exactly when [name] occurs in [s]. *)
Lemma indexOf_substring (s name : string) :
  indexOf s name <> -1 <-> is_substring name s.
Proof. apply indexOf_from_substring. lia. Qed.

Lemma indexOf_test (s name : string) :
  negb (indexOf s name =? -1) = true <-> is_substring name s.
Proof.
  rewrite <- indexOf_substring, negb_true_iff, Z.eqb_neq. reflexivity.
Qed.

Lemma indexOf_test_false (s name : string) :
  negb (indexOf s name =? -1) = false <-> ~ is_substring name s.
Proof.
  rewrite <- indexOf_test. destruct (negb (indexOf s name =? -1)); split; congruence.
Qed.


End Strings.

(** ** Safe integers *)



(** ** Traces *)

Section Traces.

Lemma skipn_length_app {A} (l l' : list A) : skipn (List.length l) (l ++ l') = l'.
Proof. induction l as [|x l IH]; simpl; auto. Qed.

Lemma events_of_app {A} (m : M A) (st : State) (l : list event) :
  trace (fst (m st)) = (trace st ++ l)%list -> events_of m st = l.
Proof. unfold events_of. intros ->. apply skipn_length_app. Qed.

Lemma events_of_eq {A} (m : M A) (st st' : State) (r : result A)
    (l : list event) :
  m st = (st', r) -> trace st' = (trace st ++ l)%list -> events_of m st = l.
Proof. intros Hm Ht. apply events_of_app. rewrite Hm. exact Ht. Qed.

End Traces.

(** ** Initialisation *)

Lemma seed_run (w : World) (size owner : string) (st : State) :
  seed w size owner st =
  ({| assetId := drawn w (draws st);
      draws := S (draws st);
      trace := trace st ++ seed_events w (drawn w (draws st)) size owner |},
   Ok tt).
Proof.
  unfold seed, seed_events, bind, new_assetId, get_assetId, try_catch,
    contract_submitTransaction, bind, emit, lift, console_log, emit, drawn.
  cbn [assetId draws trace].
  destruct (submitTransaction w "CreateAsset" _) as [[]|e];
    cbn [assetId draws trace]; rewrite <- ?app_assoc; reflexivity.
Qed.

Lemma initLedger_run (w : World) (st : State) :
  let k := draws st in
  initLedger w st =
  ({| assetId := drawn w (S (S k));
      draws := S (S (S k));
      trace := trace st ++
               initLedger_banner ::
               seed_events w (drawn w k) "1" "Tom" ++
               seed_events w (drawn w (S k)) "2" "Cat" ++
               seed_events w (drawn w (S (S k))) "2" "Dog" ++
               [Log [LStr "*** Transaction committed successfully"]] |},
   Ok tt).
Proof.
  unfold initLedger, bind, console_log, emit. cbn [assetId draws trace].
  rewrite !seed_run. cbn [assetId draws trace].
  rewrite <- !app_assoc. reflexivity.
Qed.

Lemma seed_events_submitted (w : World) (id size owner : string) :
  filter is_submit (seed_events w id size owner) =
  [Submit "CreateAsset" [id; ""; size; owner; ""]].
Proof.
  unfold seed_events.
  destruct (submitTransaction w "CreateAsset" _) as [[]|e]; reflexivity.
Qed.

Lemma initLedger_events (w : World) (st : State) :
  events_of (initLedger w) st =
  initLedger_banner ::
  seed_events w (drawn w (draws st)) "1" "Tom" ++
  seed_events w (drawn w (S (draws st))) "2" "Cat" ++
  seed_events w (drawn w (S (S (draws st)))) "2" "Dog" ++
  [Log [LStr "*** Transaction committed successfully"]].
Proof.
  apply events_of_app. pose proof (initLedger_run w st) as H. cbv zeta in H.
  rewrite H. reflexivity.
Qed.

(** C7.  [initLedger] submits the three seed assets (Tom with 1, Cat and Dog
    with 2, each under a newly drawn identifier) whatever the ledger answers:
    a submission that throws is logged with the line "... already created"
    and the next one follows, and the operation itself returns normally.  So
    a second run completes as well, even when all three of its submissions
    are rejected. *)
Theorem initLedger_rejections_are_swallowed (w1 w2 : World) (st : State) :
  let st1 := fst (initLedger w1 st) in
  outcome_of (initLedger w1) st = Ok tt /\
  submitted (initLedger w1) st =
    [Submit "CreateAsset" [drawn w1 (draws st); ""; "1"; "Tom"; ""];
     Submit "CreateAsset" [drawn w1 (S (draws st)); ""; "2"; "Cat"; ""];
     Submit "CreateAsset" [drawn w1 (S (S (draws st))); ""; "2"; "Dog"; ""]] /\
  events_of (initLedger w1) st =
    initLedger_banner ::
    seed_events w1 (drawn w1 (draws st)) "1" "Tom" ++
    seed_events w1 (drawn w1 (S (draws st))) "2" "Cat" ++
    seed_events w1 (drawn w1 (S (S (draws st)))) "2" "Dog" ++
    [Log [LStr "*** Transaction committed successfully"]] /\
  outcome_of (initLedger w1 ;;; initLedger w2) st = Ok tt /\
  outcome_of (initLedger w2) st1 = Ok tt /\
  submitted (initLedger w2) st1 =
    [Submit "CreateAsset" [drawn w2 (draws st1); ""; "1"; "Tom"; ""];
     Submit "CreateAsset" [drawn w2 (S (draws st1)); ""; "2"; "Cat"; ""];
     Submit "CreateAsset" [drawn w2 (S (S (draws st1))); ""; "2"; "Dog"; ""]].
Proof.
  assert (Hsub : forall w s,
    submitted (initLedger w) s =
    [Submit "CreateAsset" [drawn w (draws s); ""; "1"; "Tom"; ""];
     Submit "CreateAsset" [drawn w (S (draws s)); ""; "2"; "Cat"; ""];
     Submit "CreateAsset" [drawn w (S (S (draws s))); ""; "2"; "Dog"; ""]]).
  { intros w s. unfold submitted. rewrite initLedger_events.
    cbn [filter is_submit initLedger_banner].
    rewrite !filter_app, !seed_events_submitted. reflexivity. }
  assert (Hout : forall w s, outcome_of (initLedger w) s = Ok tt).
  { intros w s. unfold outcome_of.
    pose proof (initLedger_run w s) as H. cbv zeta in H. now rewrite H. }
  cbv zeta. repeat split; auto using initLedger_events.
  unfold outcome_of, bind.
  pose proof (initLedger_run w1 st) as H. cbv zeta in H. rewrite H.
  apply Hout.
Qed.

(** A run in which the peer rejects all three submissions. *)
Example initLedger_all_rejected :
  events_of (initLedger unreachable) initial_state =
    [initLedger_banner;
     Submit "CreateAsset" ["asset7"; ""; "1"; "Tom"; ""];
     Log [LExn (GatewayError "UNAVAILABLE")]; Log [LStr "Tom already created"];
     Submit "CreateAsset" ["asset7"; ""; "2"; "Cat"; ""];
     Log [LExn (GatewayError "UNAVAILABLE")]; Log [LStr "Cat already created"];
     Submit "CreateAsset" ["asset7"; ""; "2"; "Dog"; ""];
     Log [LExn (GatewayError "UNAVAILABLE")]; Log [LStr "Dog already created"];
     Log [LStr "*** Transaction committed successfully"]] /\
  outcome_of (initLedger unreachable) initial_state = Ok tt.
Proof. split; reflexivity. Qed.

(** ** The scan of a vote *)

Section VoteScan.

Variable name : string.

Lemma toString_JStr (s : string) : toString (JStr s) = Ok s.
Proof. reflexivity. Qed.

(** Entries that do not match are passed over. *)
Lemma vote_scan_skip (pre rest : list (string * jsval)) :
  Forall (no_match name) pre ->
  vote_scan (pre ++ rest) name = vote_scan rest name.
Proof.
  induction 1 as [|[key record] pre [o [Ho Hn]] _ IH]; [reflexivity|].
  cbn [app vote_scan]. unfold owner_of in Ho. cbn [snd] in Ho.
  rewrite Ho. cbn [rbind toString ToString].
  apply indexOf_test_false in Hn. rewrite Hn. exact IH.
Qed.

(** A matching entry decides the scan: what follows it is not looked at. *)
Lemma vote_scan_hit (key : string) (record : jsval)
    (post : list (string * jsval)) (o : string) :
  owner_of record o -> is_substring name o ->
  vote_scan ((key, record) :: post) name =
  rbind (get_field record "Size") (fun sz =>
  rbind (plus_one_toString sz) (fun size' =>
  rbind (get_field record "ID") (fun i =>
  rbind (toString i) (fun id =>
  Ok {| exists_ := true; size := size'; assetIdIfExists := id |})))).
Proof.
  intros Ho Hs. cbn [vote_scan]. unfold owner_of in Ho.
  rewrite Ho. cbn [rbind toString ToString].
  apply indexOf_test in Hs. rewrite Hs. reflexivity.
Qed.

Lemma vote_scan_none (entries : list (string * jsval)) :
  Forall (no_match name) entries ->
  vote_scan entries name =
  Ok {| exists_ := false; size := ""; assetIdIfExists := "" |}.
Proof.
  intros H. rewrite <- (app_nil_r entries). now rewrite vote_scan_skip.
Qed.

End VoteScan.

(** ** Runs of [createAssetWithName] *)

Lemma submit_events_submitted (w : World) (fn : string) (args : list string)
    (done : string) :
  filter is_submit (submit_events w fn args done) = [Submit fn args].
Proof.
  unfold submit_events. destruct (submitTransaction w fn args); reflexivity.
Qed.

Ltac unfold_ops :=
  unfold createAssetWithName, readAssetByName, getAllAssets,
    contract_evaluateTransaction, contract_submitTransaction,
    new_assetId, get_assetId, console_log, bind, emit, lift, ret;
  cbn [assetId draws trace fst snd].

Ltac close_trace :=
  cbn [assetId draws trace fst snd]; rewrite <- ?app_assoc;
  solve [ apply skipn_length_app | reflexivity ].

Section VoteRuns.

Variables (w : World) (name : string) (st : State).

(** The scan found a record: one [UpdateAsset], nothing else submitted. *)
Lemma createAssetWithName_update (result : jsval) (f : found) :
  ledger_returns w result ->
  vote_scan (for_in result) name = Ok f ->
  exists_ f = true ->
  let args := [assetIdIfExists f; ""; size f; name; ""] in
  events_of (createAssetWithName w name) st =
    vote_banner :: Evaluate "GetAllAssets" ::
    submit_events w "UpdateAsset" args
      "*** Transaction committed successfully - update" /\
  outcome_of (createAssetWithName w name) st =
    submitTransaction w "UpdateAsset" args.
Proof.
  intros [bytes [He Hp]] Hs Hx. cbv zeta.
  unfold events_of, outcome_of, submit_events. unfold_ops.
  rewrite He, Hp, Hs, Hx. cbn [assetId draws trace fst snd].
  destruct (submitTransaction w "UpdateAsset" _) as [[]|e];
    split; try reflexivity; close_trace.
Qed.

(** The scan found nothing: one [CreateAsset] under a newly drawn identifier,
    which becomes the value of [assetId]. *)
Lemma createAssetWithName_create (result : jsval) (f : found) :
  ledger_returns w result ->
  vote_scan (for_in result) name = Ok f ->
  exists_ f = false ->
  let args := [drawn w (draws st); ""; "1"; name; ""] in
  events_of (createAssetWithName w name) st =
    vote_banner :: Evaluate "GetAllAssets" ::
    submit_events w "CreateAsset" args
      "*** Transaction committed successfully - creation" /\
  outcome_of (createAssetWithName w name) st =
    submitTransaction w "CreateAsset" args /\
  assetId (fst (createAssetWithName w name st)) = drawn w (draws st).
Proof.
  intros [bytes [He Hp]] Hs Hx. cbv zeta.
  unfold events_of, outcome_of, submit_events, drawn. unfold_ops.
  rewrite He, Hp, Hs, Hx. cbn [assetId draws trace fst snd].
  destruct (submitTransaction w "CreateAsset" _) as [[]|e];
    repeat split; try reflexivity; close_trace.
Qed.

(** The evaluation throws: the operation ends there. *)
Lemma createAssetWithName_evaluate_fails (e : exn) :
  evaluateTransaction w "GetAllAssets" = Throw e ->
  events_of (createAssetWithName w name) st =
    [vote_banner; Evaluate "GetAllAssets"] /\
  outcome_of (createAssetWithName w name) st = Throw e.
Proof.
  intros He. unfold events_of, outcome_of. unfold_ops. rewrite He.
  split; [close_trace | reflexivity].
Qed.

(** The payload does not decode: the operation ends there. *)
Lemma createAssetWithName_decode_fails (bytes : string) (e : exn) :
  evaluateTransaction w "GetAllAssets" = Ok bytes ->
  JSON_parse w bytes = Throw e ->
  events_of (createAssetWithName w name) st =
    [vote_banner; Evaluate "GetAllAssets"] /\
  outcome_of (createAssetWithName w name) st = Throw e.
Proof.
  intros He Hp. unfold events_of, outcome_of. unfold_ops. rewrite He, Hp.
  split; [close_trace | reflexivity].
Qed.

(** The scan throws on a malformed record: the operation ends there. *)
Lemma createAssetWithName_scan_fails (result : jsval) (e : exn) :
  ledger_returns w result ->
  vote_scan (for_in result) name = Throw e ->
  events_of (createAssetWithName w name) st =
    [vote_banner; Evaluate "GetAllAssets"] /\
  outcome_of (createAssetWithName w name) st = Throw e.
Proof.
  intros [bytes [He Hp]] Hs. unfold events_of, outcome_of. unfold_ops.
  rewrite He, Hp, Hs. split; [close_trace | reflexivity].
Qed.

End VoteRuns.

(** ** Runs of [readAssetByName] *)

Section QueryScan.

Variable name : string.

Lemma add_events_nil (st : State) : add_events st [] = st.
Proof. destruct st. unfold add_events. cbn. now rewrite app_nil_r. Qed.

Lemma add_events_app (st : State) (l l' : list event) :
  add_events (add_events st l) l' = add_events st (l ++ l').
Proof. unfold add_events. cbn. now rewrite app_assoc. Qed.

Lemma query_scan_skip (pre rest : list (string * jsval)) (st : State) :
  Forall (no_match name) pre ->
  query_scan (pre ++ rest) name st =
  query_scan rest name (add_events st (map scan_line pre)).
Proof.
  intros H. revert st.
  induction H as [|[key record] pre [o [Ho Hn]] _ IH]; intros st.
  - cbn [app map]. now rewrite add_events_nil.
  - cbn [app map query_scan]. unfold owner_of in Ho. cbn [snd] in Ho.
    unfold bind, lift, console_log, emit, scan_line. cbn [fst snd].
    rewrite Ho. cbn [rbind ToString indexOf_found].
    apply indexOf_test_false in Hn. rewrite Hn.
    rewrite IH. unfold add_events. cbn [assetId draws trace].
    rewrite <- app_assoc. reflexivity.
Qed.

Lemma query_scan_hit (key : string) (record : jsval)
    (post : list (string * jsval)) (o : string) (st : State) :
  owner_of record o -> is_substring name o ->
  query_scan ((key, record) :: post) name st =
  (add_events st (hit_events (key, record)),
   match query_result_line record with
   | Ok _ => Ok tt
   | Throw e => Throw e
   end).
Proof.
  intros Ho Hs. cbn [query_scan]. unfold owner_of in Ho.
  unfold bind, lift, console_log, emit, hit_events, scan_line, add_events.
  cbn [fst snd]. rewrite Ho. cbn [rbind ToString indexOf_found].
  apply indexOf_test in Hs. rewrite Hs.
  destruct (query_result_line record); cbn [assetId draws trace];
    rewrite <- ?app_assoc; reflexivity.
Qed.

End QueryScan.

Lemma readAssetByName_run (w : World) (name : string) (st : State)
    (result : jsval) :
  ledger_returns w result ->
  readAssetByName w name st =
  query_scan (for_in result) name
    (add_events st [query_banner; Evaluate "GetAllAssets"]).
Proof.
  intros [bytes [He Hp]]. unfold_ops. rewrite He, Hp.
  unfold add_events. rewrite <- app_assoc. reflexivity.
Qed.

(** A query that finds a record logs every entry up to the first match, the
    matched record, and nothing after it. *)
Lemma readAssetByName_hit (w : World) (name : string) (st : State)
    (result : jsval) (pre post : list (string * jsval)) (key : string)
    (record : jsval) (o : string) :
  ledger_returns w result ->
  for_in result = (pre ++ (key, record) :: post)%list ->
  Forall (no_match name) pre ->
  owner_of record o -> is_substring name o ->
  events_of (readAssetByName w name) st =
    query_banner :: Evaluate "GetAllAssets" ::
    map scan_line pre ++ hit_events (key, record).
Proof.
  intros Hl Hf Hpre Ho Hs. unfold events_of.
  rewrite (readAssetByName_run _ _ _ _ Hl), Hf.
  rewrite query_scan_skip by assumption.
  rewrite (query_scan_hit _ _ _ _ o) by assumption.
  rewrite !add_events_app. unfold add_events. cbn [fst trace].
  apply skipn_length_app.
Qed.

(** ** Properties of a vote *)

(** Case analysis on membership in an explicit list of events, keeping the
    case of a submission. *)
Ltac split_in H :=
  repeat match type of H with
         | _ \/ _ => destruct H as [H|H]
         end;
  try discriminate H; try contradiction;
  try (inversion H; subst; clear H).

Lemma submitted_cons2 {A} (m : M A) (st : State) (e1 e2 : event)
    (l : list event) :
  events_of m st = e1 :: e2 :: l ->
  is_submit e1 = false -> is_submit e2 = false ->
  submitted m st = filter is_submit l.
Proof. unfold submitted. intros -> H1 H2. cbn [filter]. now rewrite H1, H2. Qed.

(** A vote whose scan matches submits the update computed from the first
    matching record, and only that. *)
Lemma vote_first_match (w : World) (name : string) (st : State)
    (result : jsval) (pre post : list (string * jsval)) (key : string)
    (record : jsval) (o : string) (f : found) :
  ledger_returns w result ->
  for_in result = (pre ++ (key, record) :: post)%list ->
  Forall (no_match name) pre ->
  owner_of record o -> is_substring name o ->
  vote_scan [(key, record)] name = Ok f ->
  exists_ f = true /\
  vote_scan (for_in result) name = Ok f /\
  submitted (createAssetWithName w name) st =
    [Submit "UpdateAsset" [assetIdIfExists f; ""; size f; name; ""]].
Proof.
  intros Hl Hf Hpre Ho Hs Hscan.
  assert (Hall : vote_scan (for_in result) name = Ok f).
  { rewrite Hf, vote_scan_skip by assumption.
    rewrite (vote_scan_hit _ _ _ post o) by assumption.
    rewrite (vote_scan_hit _ _ _ [] o) in Hscan by assumption. exact Hscan. }
  assert (Hx : exists_ f = true).
  { rewrite (vote_scan_hit _ _ _ [] o) in Hscan by assumption.
    destruct (get_field record "Size") as [sz|]; [|discriminate].
    cbn [rbind] in Hscan.
    destruct (plus_one_toString sz); [|discriminate]. cbn [rbind] in Hscan.
    destruct (get_field record "ID") as [i|]; [|discriminate].
    cbn [rbind] in Hscan.
    destruct (toString i); [|discriminate]. cbn [rbind] in Hscan.
    inversion Hscan. reflexivity. }
  repeat split; trivial.
  destruct (createAssetWithName_update w name st result f Hl Hall Hx) as [He _].
  rewrite (submitted_cons2 _ _ _ _ _ He) by reflexivity.
  apply submit_events_submitted.
Qed.

(** A vote at a numeric size.  When the candidate name occurs in the owner of
    some asset, and the first such asset carries the number 2 as its [Size],
    the vote submits [UpdateAsset] for that asset's identifier with size "3"
    (the code adds 1 to the decoded [Size] and prints the sum; it does not
    parse a string), the candidate name as owner, and empty colour and
    appraised value. *)
Theorem vote_increments_numeric_size (w : World) (name : string) (st : State)
    (result : jsval) (pre post : list (string * jsval)) (key : string)
    (record : jsval) (o id : string) :
  ledger_returns w result ->
  for_in result = (pre ++ (key, record) :: post)%list ->
  Forall (no_match name) pre ->
  owner_of record o -> is_substring name o ->
  get_field record "Size" = Ok (JNum 2) ->
  get_field record "ID" = Ok (JStr id) ->
  submitted (createAssetWithName w name) st =
    [Submit "UpdateAsset" [id; ""; "3"; name; ""]].
Proof.
  intros Hl Hf Hpre Ho Hs Hsize Hid.
  assert (Hscan : vote_scan [(key, record)] name =
                  Ok {| exists_ := true; size := "3"; assetIdIfExists := id |}).
  { rewrite (vote_scan_hit _ _ _ [] o) by assumption.
    rewrite Hsize, Hid. reflexivity. }
  destruct (vote_first_match w name st result pre post key record o _
              Hl Hf Hpre Ho Hs Hscan) as [_ [_ H]].
  exact H.
Qed.

(** C3.  When the candidate name occurs in the owner of no asset, the vote
    submits exactly one transaction: [CreateAsset] under the identifier drawn
    for it ("asset" followed by the random number), with empty colour, size
    "1", the candidate name as owner and empty appraised value.  No
    [UpdateAsset] is submitted, and [assetId] holds the new identifier. *)
Theorem vote_creates_when_unmatched (w : World) (name : string) (st : State)
    (result : jsval) :
  ledger_returns w result ->
  Forall (no_match name) (for_in result) ->
  submitted (createAssetWithName w name) st =
    [Submit "CreateAsset" [drawn w (draws st); ""; "1"; name; ""]] /\
  (forall args,
     ~ In (Submit "UpdateAsset" args) (events_of (createAssetWithName w name) st)) /\
  assetId (fst (createAssetWithName w name st)) = drawn w (draws st).
Proof.
  intros Hl Hall.
  pose proof (vote_scan_none name _ Hall) as Hscan.
  destruct (createAssetWithName_create w name st result _ Hl Hscan eq_refl)
    as [He [_ Hid]].
  split; [|split; [|exact Hid]].
  - rewrite (submitted_cons2 _ _ _ _ _ He) by reflexivity.
    apply submit_events_submitted.
  - intros args Hin. rewrite He in Hin. unfold submit_events in Hin.
    destruct (submitTransaction w "CreateAsset" _);
      cbn [In] in Hin; intuition discriminate.
Qed.

(** C6.  A vote submits only after [GetAllAssets] has been evaluated, its
    payload decoded and the scan completed: whenever a transaction is
    submitted, the ledger returned a collection, the scan of it ended without
    an exception, and the submission follows the evaluation in the trace and
    is the only one.  When the evaluation throws, when the payload does not
    decode, or when the scan throws, the vote ends with that exception and
    submits nothing. *)
Theorem vote_scans_before_it_submits (w : World) (name : string) (st : State) :
  (forall fn args,
     In (Submit fn args) (events_of (createAssetWithName w name) st) ->
     exists result f tail,
       ledger_returns w result /\
       vote_scan (for_in result) name = Ok f /\
       events_of (createAssetWithName w name) st =
         vote_banner :: Evaluate "GetAllAssets" :: Submit fn args :: tail /\
       filter is_submit tail = []) /\
  (forall e,
     evaluateTransaction w "GetAllAssets" = Throw e ->
     submitted (createAssetWithName w name) st = [] /\
     outcome_of (createAssetWithName w name) st = Throw e) /\
  (forall bytes e,
     evaluateTransaction w "GetAllAssets" = Ok bytes ->
     JSON_parse w bytes = Throw e ->
     submitted (createAssetWithName w name) st = [] /\
     outcome_of (createAssetWithName w name) st = Throw e) /\
  (forall result e,
     ledger_returns w result ->
     vote_scan (for_in result) name = Throw e ->
     submitted (createAssetWithName w name) st = [] /\
     outcome_of (createAssetWithName w name) st = Throw e).
Proof.
  assert (Hquiet : forall e,
    events_of (createAssetWithName w name) st =
      [vote_banner; Evaluate "GetAllAssets"] /\
    outcome_of (createAssetWithName w name) st = Throw e ->
    (forall fn args,
       ~ In (Submit fn args) (events_of (createAssetWithName w name) st)) /\
    submitted (createAssetWithName w name) st = [] /\
    outcome_of (createAssetWithName w name) st = Throw e).
  { intros e [He Ho]. unfold submitted. rewrite He. repeat split; trivial.
    intros fn args Hin. cbn [In] in Hin. unfold vote_banner in Hin.
    intuition discriminate. }
  split; [|split; [|split]].
  - intros fn args Hin.
    destruct (evaluateTransaction w "GetAllAssets") as [bytes|e] eqn:He.
    2:{ destruct (Hquiet e (createAssetWithName_evaluate_fails w name st e He))
          as [Hno _]. now elim (Hno fn args). }
    destruct (JSON_parse w bytes) as [result|e] eqn:Hp.
    2:{ destruct (Hquiet e
          (createAssetWithName_decode_fails w name st bytes e He Hp))
          as [Hno _]. now elim (Hno fn args). }
    assert (Hl : ledger_returns w result) by (exists bytes; auto).
    destruct (vote_scan (for_in result) name) as [f|e] eqn:Hs.
    2:{ destruct (Hquiet e
          (createAssetWithName_scan_fails w name st result e Hl Hs))
          as [Hno _]. now elim (Hno fn args). }
    exists result, f.
    destruct (exists_ f) eqn:Hx.
    + destruct (createAssetWithName_update w name st result f Hl Hs Hx)
        as [Hev _].
      rewrite Hev in Hin |- *. unfold submit_events in Hin |- *.
      destruct (submitTransaction w "UpdateAsset" _);
        cbn [In] in Hin; unfold vote_banner in Hin; split_in Hin;
        eexists; repeat split; try eassumption; reflexivity.
    + destruct (createAssetWithName_create w name st result f Hl Hs Hx)
        as [Hev _].
      rewrite Hev in Hin |- *. unfold submit_events in Hin |- *.
      destruct (submitTransaction w "CreateAsset" _);
        cbn [In] in Hin; unfold vote_banner in Hin; split_in Hin;
        eexists; repeat split; try eassumption; reflexivity.
  - intros e He.
    apply (Hquiet e (createAssetWithName_evaluate_fails w name st e He)).
  - intros bytes e He Hp.
    apply (Hquiet e (createAssetWithName_decode_fails w name st bytes e He Hp)).
  - intros result e Hl Hs.
    apply (Hquiet e (createAssetWithName_scan_fails w name st result e Hl Hs)).
Qed.

(** C2.  The scan of a vote and of a query visits the decoded collection in
    the order [for..in] delivers it.  A record matches when the candidate name
    occurs in its owner, and the first such record decides: the vote is
    computed from that record alone whatever follows it, and the query logs
    the entries up to that record, then the record, and nothing after it.
    [indexOf] finds a name exactly when it occurs as a substring.  With the
    owners "Tomas" then "Tom", a vote and a query for "Tom" reach the "Tomas"
    record; a vote for "tom" matches neither and creates an asset. *)
Theorem scan_first_substring_match_wins :
  (forall (w : World) (name : string) (st : State) (result : jsval)
          (pre post : list (string * jsval)) (key : string)
          (record : jsval) (o : string),
     ledger_returns w result ->
     for_in result = (pre ++ (key, record) :: post)%list ->
     Forall (no_match name) pre ->
     owner_of record o -> is_substring name o ->
     vote_scan (for_in result) name = vote_scan [(key, record)] name /\
     (forall f,
        vote_scan [(key, record)] name = Ok f ->
        rbind (get_field record "ID") toString = Ok (assetIdIfExists f) /\
        submitted (createAssetWithName w name) st =
          [Submit "UpdateAsset" [assetIdIfExists f; ""; size f; name; ""]]) /\
     events_of (readAssetByName w name) st =
       query_banner :: Evaluate "GetAllAssets" ::
       map scan_line pre ++ hit_events (key, record)) /\
  (forall s name, indexOf s name <> -1 <-> is_substring name s) /\
  submitted (createAssetWithName (world_of tomas_then_tom 7) "Tom")
    initial_state =
    [Submit "UpdateAsset" ["asset1"; ""; "2"; "Tom"; ""]] /\
  events_of (readAssetByName (world_of tomas_then_tom 7) "Tom") initial_state =
    [query_banner; Evaluate "GetAllAssets"; Log [LStr "0 : Tomas"];
     Log [LStr "Query Result:   asset1 Tomas 1"]] /\
  submitted (createAssetWithName (world_of tomas_then_tom 7) "tom")
    initial_state =
    [Submit "CreateAsset" ["asset7"; ""; "1"; "tom"; ""]].
Proof.
  split; [|split; [exact indexOf_substring | repeat split; reflexivity]].
  intros w name st result pre post key record o Hl Hf Hpre Ho Hs.
  split; [|split].
  - rewrite Hf, vote_scan_skip by assumption.
    rewrite (vote_scan_hit _ _ _ post o) by assumption.
    now rewrite (vote_scan_hit _ _ _ [] o) by assumption.
  - intros f Hscan. split.
    + rewrite (vote_scan_hit _ _ _ [] o) in Hscan by assumption.
      destruct (get_field record "Size") as [sz|]; [|discriminate].
      cbn [rbind] in Hscan.
      destruct (plus_one_toString sz); [|discriminate]. cbn [rbind] in Hscan.
      destruct (get_field record "ID") as [i|]; [|discriminate].
      cbn [rbind] in Hscan |- *.
      destruct (toString i); [|discriminate]. cbn [rbind] in Hscan.
      inversion Hscan. reflexivity.
    + apply (vote_first_match w name st result pre post key record o f);
        assumption.
  - apply (readAssetByName_hit w name st result pre post key record o);
      assumption.
Qed.


(** ** Credentials *)

(** C8.  For a directory whose listing the file system delivers (a list of
    non-empty names), [getFirstDirFileName] returns the first name of the
    listing, joined to the directory path, and throws the error "No files in
    directory: ..." exactly when the listing is empty. *)
Theorem getFirstDirFileName_first_or_not_found (h : Host) (dirPath : string)
    (files : list string) (st : State) :
  fs_readdir h dirPath = Ok files ->
  (forall f, In f files -> f <> "") ->
  (forall file rest,
     files = file :: rest ->
     outcome_of (getFirstDirFileName h dirPath) st =
       Ok (path_join h dirPath file)) /\
  (files = [] ->
     outcome_of (getFirstDirFileName h dirPath) st =
       Throw (Error ("No files in directory: " ++ dirPath))) /\
  ((exists e, outcome_of (getFirstDirFileName h dirPath) st = Throw e) <->
   files = []).
Proof.
  intros Hdir Hnames.
  unfold outcome_of, getFirstDirFileName, bind, lift, ret. rewrite Hdir.
  cbn [snd]. destruct files as [|file rest].
  - split; [intros file rest E; discriminate|].
    split; [reflexivity|]. split; [reflexivity|]. intros _. eexists. reflexivity.
  - assert (Hne : String.eqb file "" = false).
    { apply String.eqb_neq. apply Hnames. now left. }
    rewrite Hne. cbn [snd]. repeat split; try discriminate.
    + intros f r E. now inversion E.
    + intros [e He]. discriminate.
Qed.

(** ** What every operation may add to the trace *)

Create HintDb adds.

Section AddsOnly.

Variable P : event -> Prop.

Lemma adds_only_ret {A} (a : A) : adds_only P (ret a).
Proof. intros st. exists []. split; [symmetry; apply app_nil_r | constructor]. Qed.

Lemma adds_only_lift {A} (r : result A) : adds_only P (lift r).
Proof. intros st. exists []. split; [symmetry; apply app_nil_r | constructor]. Qed.

Lemma adds_only_emit (e : event) : P e -> adds_only P (emit e).
Proof. intros He st. exists [e]. split; [reflexivity | now constructor]. Qed.

Lemma adds_only_bind {A B} (m : M A) (k : A -> M B) :
  adds_only P m -> (forall a, adds_only P (k a)) -> adds_only P (bind m k).
Proof.
  intros Hm Hk st. unfold bind. destruct (Hm st) as [l [Hl HP]].
  destruct (m st) as [st' [a|e]]; cbn [fst] in *.
  - destruct (Hk a st') as [l' [Hl' HP']]. exists (l ++ l')%list.
    split; [now rewrite Hl', Hl, app_assoc | now apply Forall_app].
  - now exists l.
Qed.

Lemma adds_only_try_catch {A} (m : M A) (h : exn -> M A) :
  adds_only P m -> (forall e, adds_only P (h e)) ->
  adds_only P (try_catch m h).
Proof.
  intros Hm Hh st. unfold try_catch. destruct (Hm st) as [l [Hl HP]].
  destruct (m st) as [st' [a|e]]; cbn [fst] in *.
  - now exists l.
  - destruct (Hh e st') as [l' [Hl' HP']]. exists (l ++ l')%list.
    split; [now rewrite Hl', Hl, app_assoc | now apply Forall_app].
Qed.

Lemma adds_only_try_finally {A} (m : M A) (fin : M unit) :
  adds_only P m -> adds_only P fin -> adds_only P (try_finally m fin).
Proof.
  intros Hm Hf st. unfold try_finally. destruct (Hm st) as [l [Hl HP]].
  destruct (m st) as [st' r]. cbn [fst] in *.
  destruct (Hf st') as [l' [Hl' HP']].
  destruct (fin st') as [st'' [u|e]]; cbn [fst] in *; exists (l ++ l')%list;
    (split; [now rewrite Hl', Hl, app_assoc | now apply Forall_app]).
Qed.

Lemma adds_only_if {A} (b : bool) (m1 m2 : M A) :
  adds_only P m1 -> adds_only P m2 -> adds_only P (if b then m1 else m2).
Proof. destruct b; auto. Qed.

Lemma adds_only_when (b : bool) (m : M unit) :
  adds_only P m -> adds_only P (when b m).
Proof. intros H. unfold when. destruct b; [exact H | apply adds_only_ret]. Qed.

Lemma adds_only_new_assetId (w : World) : adds_only P (new_assetId w).
Proof. intros st. exists []. split; [symmetry; apply app_nil_r | constructor]. Qed.

Lemma adds_only_get_assetId : adds_only P get_assetId.
Proof. intros st. exists []. split; [symmetry; apply app_nil_r | constructor]. Qed.

(** From here on [P] holds of what the operations log, evaluate and
    submit. *)
Hypothesis P_log : forall args, P (Log args).
Hypothesis P_evaluate : forall fn, P (Evaluate fn).
Hypothesis P_submit : forall fn args, P (Submit fn args).

Lemma adds_only_console_log (args : list logarg) :
  adds_only P (console_log args).
Proof. apply adds_only_emit, P_log. Qed.

Lemma adds_only_evaluate (w : World) (fn : string) :
  adds_only P (contract_evaluateTransaction w fn).
Proof.
  apply adds_only_bind; [apply adds_only_emit, P_evaluate|].
  intros; apply adds_only_lift.
Qed.

Lemma adds_only_submit (w : World) (fn : string) (args : list string) :
  adds_only P (contract_submitTransaction w fn args).
Proof.
  apply adds_only_bind; [apply adds_only_emit, P_submit|].
  intros; apply adds_only_lift.
Qed.

Hint Resolve adds_only_ret adds_only_lift adds_only_console_log
  adds_only_bind adds_only_try_catch adds_only_try_finally adds_only_if
  adds_only_when adds_only_new_assetId adds_only_get_assetId
  adds_only_evaluate adds_only_submit : adds.

Lemma adds_only_initLedger (w : World) : adds_only P (initLedger w).
Proof. unfold initLedger, seed. auto 20 with adds. Qed.

Lemma adds_only_getAllAssets (w : World) : adds_only P (getAllAssets w).
Proof. unfold getAllAssets. auto 20 with adds. Qed.

Lemma adds_only_createAssetWithName (w : World) (name : string) :
  adds_only P (createAssetWithName w name).
Proof. unfold createAssetWithName. auto 20 with adds. Qed.

Lemma adds_only_query_scan (entries : list (string * jsval)) (name : string) :
  adds_only P (query_scan entries name).
Proof.
  induction entries as [|[key record] rest IH]; cbn [query_scan];
    auto 20 with adds.
Qed.

Lemma adds_only_readAssetByName (w : World) (name : string) :
  adds_only P (readAssetByName w name).
Proof.
  unfold readAssetByName. pose proof adds_only_query_scan.
  auto 20 with adds.
Qed.

Variables (h : Host) (cfg : Config).

Lemma adds_only_getFirstDirFileName (dirPath : string) :
  adds_only P (getFirstDirFileName h dirPath).
Proof.
  unfold getFirstDirFileName. apply adds_only_bind; [auto with adds|].
  intros [|file rest]; auto with adds.
Qed.

Lemma adds_only_callback_body (i : nat) (val : string) :
  adds_only P (callback_body h i val).
Proof.
  unfold callback_body.
  auto 20 using adds_only_getAllAssets, adds_only_initLedger with adds.
Qed.

(** And of the two events of the start-up. *)
Hypothesis P_open : forall endpoint, P (OpenClient endpoint).
Hypothesis P_connect : P (ConnectGateway connect_options).

Lemma adds_only_main (argv : list string) : adds_only P (main h cfg argv).
Proof.
  pose proof adds_only_getFirstDirFileName.
  unfold main, displayInputParameters, newGrpcConnection, newIdentity,
    newSigner.
  repeat (apply adds_only_bind;
          [auto 20 using adds_only_emit with adds | intros]).
  apply adds_only_try_finally; [|apply adds_only_ret].
  intros st. exists []. split; [symmetry; apply app_nil_r | constructor].
Qed.

Lemma spawn_adds_only (i : nat) (k : task_kind) (st0 : State) (m : M unit) :
  trace st0 = [] -> adds_only P m ->
  Forall P (trace (task_state (spawn i k st0 m))).
Proof.
  intros H0 Hm. unfold spawn. destruct (Hm st0) as [l [Hl HP]].
  destruct (m st0) as [st r]. cbn [task_state fst] in *.
  now rewrite Hl, H0.
Qed.

Lemma forEach_adds_only (st0 : State) (argv : list string) (i : nat) :
  trace st0 = [] ->
  Forall (fun t => Forall P (trace (task_state t))) (forEach h st0 i argv).
Proof.
  intros H0. revert i. induction argv as [|val rest IH]; intros i.
  - constructor.
  - cbn [forEach]. apply Forall_app. split; [|apply IH].
    unfold callback. repeat (apply Forall_app; split).
    + destruct (contains val "query="); constructor; [|constructor].
      apply spawn_adds_only; auto using adds_only_readAssetByName.
    + destruct (contains val "vote="); constructor; [|constructor].
      apply spawn_adds_only; auto using adds_only_createAssetWithName.
    + constructor; [|constructor].
      apply spawn_adds_only; auto using adds_only_callback_body.
Qed.

End AddsOnly.

(** ** [main] *)

Section Main.

Variables (h : Host) (cfg : Config).

(** What [main] does and how it settles is decided before the arguments are
    looked at: the arguments only determine which promises are left behind. *)
Lemma main_argv (argv : list string) (st : State) :
  main h cfg argv st =
  match main h cfg [] st with
  | (st', Ok _) => (st', Ok (forEach h (fresh st') 0 argv))
  | (st', Throw e) => (st', Throw e)
  end.
Proof.
  unfold main, bind.
  destruct (displayInputParameters cfg st) as [s1 [u1|e1]]; [|reflexivity].
  destruct (newGrpcConnection h cfg s1) as [s2 [u2|e2]]; [|reflexivity].
  destruct (newIdentity h cfg s2) as [s3 [u3|e3]]; [|reflexivity].
  destruct (newSigner h cfg s3) as [s4 [u4|e4]]; [|reflexivity].
  destruct (emit (ConnectGateway connect_options) s4) as [s5 [u5|e5]];
    reflexivity.
Qed.

(** Every event of a run that was not in the trace before it satisfies a
    property that holds of the events the operations and the start-up
    emit. *)
Lemma program_adds_only (P : event -> Prop) (argv : list string)
    (st0 : State) :
  (forall args, P (Log args)) -> (forall fn, P (Evaluate fn)) ->
  (forall fn args, P (Submit fn args)) ->
  (forall endpoint, P (OpenClient endpoint)) ->
  P (ConnectGateway connect_options) ->
  exists l,
    all_events (program h cfg argv st0) = (trace st0 ++ l)%list /\ Forall P l.
Proof.
  intros Hlog Hev Hsub Hopen Hconn. unfold all_events, program.
  assert (Hmain : adds_only P (main h cfg argv))
    by (apply adds_only_main; assumption).
  assert (Htasks : forall st, trace st = [] ->
            Forall (fun t => Forall P (trace (task_state t)))
                   (forEach h st 0 argv))
    by (intros; apply forEach_adds_only; assumption).
  destruct (Hmain st0) as [l [Hl HP]].
  pose proof (main_argv argv st0) as Hm.
  destruct (main h cfg argv st0) as [st [ts|e]]; cbn [fst] in Hl;
    cbn [main_state tasks].
  - exists (l ++ flat_map (fun t => trace (task_state t)) ts)%list.
    split; [now rewrite Hl, app_assoc|].
    apply Forall_app. split; [exact HP|].
    destruct (main h cfg [] st0) as [st' [ts'|e']]; [|discriminate].
    inversion Hm; subst.
    apply Forall_flat_map. apply Htasks. reflexivity.
  - exists l. cbn [flat_map]. rewrite app_nil_r. auto.
Qed.

Lemma filter_none {A} (p : A -> bool) (l : list A) :
  Forall (fun a => p a = false) l -> filter p l = [].
Proof.
  induction 1 as [|a l Ha _ IH]; [reflexivity|]. cbn [filter].
  now rewrite Ha.
Qed.

End Main.

(** ** The program as a whole: timeouts and releases *)

(** C9.  The option functions handed to [connect] set the deadline of a call
    from the time [now] at which they are asked: evaluate 5 seconds later,
    endorse 15, submit 5, commit status 60 (in milliseconds).  Every gateway
    a run connects is given these option functions. *)
Theorem deadlines_from_now :
  (forall now,
     deadline (evaluateOptions connect_options now) = now + 5 * 1000 /\
     deadline (endorseOptions connect_options now) = now + 15 * 1000 /\
     deadline (submitOptions connect_options now) = now + 5 * 1000 /\
     deadline (commitStatusOptions connect_options now) = now + 60 * 1000) /\
  (forall h cfg argv st0 options,
     trace st0 = [] ->
     In (ConnectGateway options) (all_events (program h cfg argv st0)) ->
     options = connect_options).
Proof.
  split; [intros now; repeat split|].
  intros h cfg argv st0 options H0 Hin.
  destruct (program_adds_only h cfg
              (fun e => forall o, e = ConnectGateway o -> o = connect_options)
              argv st0) as [l [Hl HP]]; try discriminate.
  - intros o E. now inversion E.
  - rewrite Hl, H0 in Hin. cbn [app] in Hin.
    rewrite Forall_forall in HP. exact (HP _ Hin options eq_refl).
Qed.

(** C5, as the code has it.  No run of the program releases the gateway or
    the gRPC client: the [finally] block of [main] is empty and no operation
    closes anything, so the events of a run hold exactly the releases that
    were in the trace before it, whatever the operations did. *)
Theorem program_never_releases (h : Host) (cfg : Config)
    (argv : list string) (st0 : State) :
  filter is_release (all_events (program h cfg argv st0)) =
  filter is_release (trace st0).
Proof.
  destruct (program_adds_only h cfg (fun e => is_release e = false) argv st0)
    as [l [Hl HP]]; try reflexivity.
  rewrite Hl, filter_app, (filter_none _ _ HP). apply app_nil_r.
Qed.

(** ** Whole runs *)


(** The claim C5, as the specification states it, at a run that succeeds:
    the client is opened and the gateway connected, and the number of
    releases in the run is 0, not 1. *)
Lemma release_exactly_once_fails :
  let p := program (host_with (world_of tomas_then_tom 7)) default_config
             ["node"; "app.js"; "getAllVotes=true"] initial_state in
  In (OpenClient "localhost:7051") (all_events p) /\
  In (ConnectGateway connect_options) (all_events p) /\
  map settled (unhandled_rejections p) = [] /\
  List.length (filter is_release (all_events p)) = 0%nat /\
  List.length (filter is_release (all_events p)) <> 1%nat.
Proof.
  cbv zeta. split; [|split; [|split; [|split]]].
  - vm_compute. tauto.
  - cbn. tauto.
  - reflexivity.
  - reflexivity.
  - vm_compute. discriminate.
Qed.

(** C1.  The vote is meant to add one vote to the candidate; at an asset
    whose size is the string "2" it does not.  The name is found, the matched
    size is "2", and since [Size + 1] concatenates when [Size] is a string,
    the update carries "21", not "3". *)
Lemma string_size_is_concatenated :
  let record := asset "asset1" "" (JStr "2") "Cat" "" in
  let w := world_of (JArr [record]) 7 in
  ledger_returns w (JArr [record]) /\
  for_in (JArr [record]) = [("0", record)] /\
  owner_of record "Cat" /\ is_substring "Cat" "Cat" /\
  get_field record "Size" = Ok (JStr "2") /\
  get_field record "ID" = Ok (JStr "asset1") /\
  submitted (createAssetWithName w "Cat") initial_state =
    [Submit "UpdateAsset" ["asset1"; ""; "21"; "Cat"; ""]] /\
  submitted (createAssetWithName w "Cat") initial_state <>
    [Submit "UpdateAsset" ["asset1"; ""; "3"; "Cat"; ""]].
Proof.
  cbv zeta. repeat split; try reflexivity; try discriminate.
  - exists "payload". split; reflexivity.
  - exists "", "". reflexivity.
Qed.

(** ** The theorems at concrete inputs *)

Lemma world_of_returns (result : jsval) (r : Z) :
  ledger_returns (world_of result r) result.
Proof. exists "payload". split; reflexivity. Qed.

Lemma no_match_asset (name key id color : string) (sz : jsval)
    (owner appraised : string) :
  negb (indexOf owner name =? -1) = false ->
  no_match name (key, asset id color sz owner appraised).
Proof.
  intros H. exists owner. split; [reflexivity|].
  now apply indexOf_test_false.
Qed.

Lemma vote_increments_numeric_size_witness :
  let w := world_of (JArr [tom_record; cat_record]) 7 in
  (ledger_returns w (JArr [tom_record; cat_record]) /\
   for_in (JArr [tom_record; cat_record]) =
     ([("0", tom_record)] ++ ("1", cat_record) :: [])%list /\
   Forall (no_match "Cat") [("0", tom_record)] /\
   owner_of cat_record "Cat" /\ is_substring "Cat" "Cat" /\
   get_field cat_record "Size" = Ok (JNum 2) /\
   get_field cat_record "ID" = Ok (JStr "asset2")) /\
  submitted (createAssetWithName w "Cat") initial_state =
    [Submit "UpdateAsset" ["asset2"; ""; "3"; "Cat"; ""]].
Proof.
  cbv zeta.
  assert (H1 := world_of_returns (JArr [tom_record; cat_record]) 7).
  assert (H3 : Forall (no_match "Cat") [("0", tom_record)]).
  { constructor; [|constructor]. now apply no_match_asset. }
  assert (H5 : is_substring "Cat" "Cat") by (exists "", ""; reflexivity).
  split; [repeat split; trivial|].
  exact (vote_increments_numeric_size _ "Cat" initial_state
           (JArr [tom_record; cat_record]) [("0", tom_record)] [] "1"
           cat_record "Cat" "asset2" H1 eq_refl H3 eq_refl H5 eq_refl eq_refl).
Defined.

Lemma scan_first_substring_match_wins_witness :
  let coll := JArr [cat_record; tomas_record; tom4_record] in
  let w := world_of coll 7 in
  (ledger_returns w coll /\
   for_in coll =
     ([("0", cat_record)] ++ ("1", tomas_record) :: [("2", tom4_record)])%list /\
   Forall (no_match "Tom") [("0", cat_record)] /\
   owner_of tomas_record "Tomas" /\ is_substring "Tom" "Tomas") /\
  vote_scan (for_in coll) "Tom" = vote_scan [("1", tomas_record)] "Tom" /\
  (forall f,
     vote_scan [("1", tomas_record)] "Tom" = Ok f ->
     rbind (get_field tomas_record "ID") toString = Ok (assetIdIfExists f) /\
     submitted (createAssetWithName w "Tom") initial_state =
       [Submit "UpdateAsset" [assetIdIfExists f; ""; size f; "Tom"; ""]]) /\
  events_of (readAssetByName w "Tom") initial_state =
    query_banner :: Evaluate "GetAllAssets" ::
    map scan_line [("0", cat_record)] ++ hit_events ("1", tomas_record).
Proof.
  cbv zeta.
  assert (H1 := world_of_returns (JArr [cat_record; tomas_record; tom4_record]) 7).
  assert (H3 : Forall (no_match "Tom") [("0", cat_record)]).
  { constructor; [|constructor]. now apply no_match_asset. }
  assert (H5 : is_substring "Tom" "Tomas") by (exists "", "as"; reflexivity).
  split; [repeat split; trivial|].
  exact (proj1 scan_first_substring_match_wins _ "Tom" initial_state
           (JArr [cat_record; tomas_record; tom4_record])
           [("0", cat_record)] [("2", tom4_record)] "1" tomas_record "Tomas"
           H1 eq_refl H3 eq_refl H5).
Defined.

Lemma vote_creates_when_unmatched_witness :
  let w := world_of tomas_then_tom 7 in
  (ledger_returns w tomas_then_tom /\
   Forall (no_match "Cat") (for_in tomas_then_tom)) /\
  submitted (createAssetWithName w "Cat") initial_state =
    [Submit "CreateAsset" ["asset7"; ""; "1"; "Cat"; ""]] /\
  (forall args,
     ~ In (Submit "UpdateAsset" args)
          (events_of (createAssetWithName w "Cat") initial_state)) /\
  assetId (fst (createAssetWithName w "Cat" initial_state)) = "asset7".
Proof.
  cbv zeta.
  assert (H1 := world_of_returns tomas_then_tom 7).
  assert (H2 : Forall (no_match "Cat") (for_in tomas_then_tom)).
  { repeat constructor; now apply no_match_asset. }
  split; [split; trivial|].
  exact (vote_creates_when_unmatched _ "Cat" initial_state tomas_then_tom H1 H2).
Defined.

Lemma vote_scans_before_it_submits_witness :
  evaluateTransaction unreachable "GetAllAssets" =
    Throw (GatewayError "UNAVAILABLE") /\
  submitted (createAssetWithName unreachable "Tom") initial_state = [] /\
  outcome_of (createAssetWithName unreachable "Tom") initial_state =
    Throw (GatewayError "UNAVAILABLE").
Proof.
  split; [reflexivity|].
  exact (proj1 (proj2 (vote_scans_before_it_submits unreachable "Tom"
                         initial_state))
           (GatewayError "UNAVAILABLE") eq_refl).
Defined.

Lemma getFirstDirFileName_first_or_not_found_witness :
  let h := host_with unreachable in
  (fs_readdir h "/org1/keystore" = Ok ["user.pem"] /\
   (forall f, In f ["user.pem"] -> f <> "")) /\
  outcome_of (getFirstDirFileName h "/org1/keystore") initial_state =
    Ok "/org1/keystore/user.pem".
Proof.
  cbv zeta.
  assert (H2 : forall f, In f ["user.pem"] -> f <> "").
  { intros f [<-|[]]. discriminate. }
  split; [split; [reflexivity | exact H2]|].
  exact (proj1 (getFirstDirFileName_first_or_not_found (host_with unreachable)
                  "/org1/keystore" ["user.pem"] initial_state eq_refl H2)
           "user.pem" [] eq_refl).
Defined.


Lemma deadlines_from_now_witness :
  let p := program (host_with (world_of tomas_then_tom 7)) default_config
             ["node"; "app.js"; "getAllVotes=true"] initial_state in
  (trace initial_state = [] /\
   In (ConnectGateway connect_options) (all_events p)) /\
  deadline (commitStatusOptions connect_options 1000) = 61000 /\
  connect_options = connect_options.
Proof.
  cbv zeta.
  assert (Hin : In (ConnectGateway connect_options)
                  (all_events (program (host_with (world_of tomas_then_tom 7))
                     default_config ["node"; "app.js"; "getAllVotes=true"]
                     initial_state))) by (cbn; tauto).
  split; [split; [reflexivity | exact Hin]|].
  split; [exact (proj2 (proj2 (proj2 (proj1 deadlines_from_now 1000))))|].
  exact (proj2 deadlines_from_now _ _ _ initial_state connect_options
           eq_refl Hin).
Defined.

(** * Further properties of app.ts *)

(** ** Configuration *)

(** X1.  [envOrDefault] gives the value of the variable when it is set to a
    non-empty string, and the default when the variable is unset or set to
    the empty string; so a non-empty default never resolves to an empty
    value. *)
Theorem envOrDefault_falls_back_on_empty (env : string -> option string)
    (key defaultValue : string) :
  (forall v, env key = Some v -> v <> "" ->
             envOrDefault env key defaultValue = v) /\
  (env key = None \/ env key = Some "" ->
   envOrDefault env key defaultValue = defaultValue) /\
  (defaultValue <> "" -> envOrDefault env key defaultValue <> "").
Proof.
  unfold envOrDefault. split; [|split].
  - intros v -> Hv. apply String.eqb_neq in Hv. now rewrite Hv.
  - intros [->| ->]; reflexivity.
  - intros Hd. destruct (env key) as [v|]; [|exact Hd].
    destruct (String.eqb v "") eqn:E; [exact Hd|].
    now apply String.eqb_neq.
Qed.

Lemma envOrDefault_falls_back_on_empty_witness :
  let env := fun k => if String.eqb k "MSP_ID" then Some "" else None in
  (env "MSP_ID" = None \/ env "MSP_ID" = Some "") /\
  envOrDefault env "MSP_ID" "Org1MSP" = "Org1MSP".
Proof.
  cbv zeta. split; [right; reflexivity|].
  exact (proj1 (proj2 (envOrDefault_falls_back_on_empty
                         (fun k => if String.eqb k "MSP_ID" then Some "" else None)
                         "MSP_ID" "Org1MSP")) (or_intror eq_refl)).
Defined.

(** ** Reading the ledger *)

Lemma adds_events_of {A} (P : event -> Prop) (m : M A) (st : State) :
  adds_only P m -> Forall P (events_of m st).
Proof.
  intros Hm. destruct (Hm st) as [l [Hl HP]].
  now rewrite (events_of_app m st l Hl).
Qed.

(** X2.  [getAllAssets] evaluates [GetAllAssets] and logs the decoded
    collection; when the evaluation throws or the payload does not decode it
    ends with that exception after the evaluation, and logs no result. *)
Theorem getAllAssets_logs_or_throws (w : World) (st : State) :
  (forall bytes result,
     evaluateTransaction w "GetAllAssets" = Ok bytes ->
     JSON_parse w bytes = Ok result ->
     events_of (getAllAssets w) st =
       [getAllAssets_banner; Evaluate "GetAllAssets";
        Log [LStr "*** Result:"; LVal result]] /\
     outcome_of (getAllAssets w) st = Ok tt) /\
  (forall e,
     evaluateTransaction w "GetAllAssets" = Throw e ->
     events_of (getAllAssets w) st =
       [getAllAssets_banner; Evaluate "GetAllAssets"] /\
     outcome_of (getAllAssets w) st = Throw e) /\
  (forall bytes e,
     evaluateTransaction w "GetAllAssets" = Ok bytes ->
     JSON_parse w bytes = Throw e ->
     events_of (getAllAssets w) st =
       [getAllAssets_banner; Evaluate "GetAllAssets"] /\
     outcome_of (getAllAssets w) st = Throw e).
Proof.
  split; [|split].
  - intros bytes result He Hp. unfold events_of, outcome_of. unfold_ops.
    rewrite He, Hp. split; [close_trace | reflexivity].
  - intros e He. unfold events_of, outcome_of. unfold_ops. rewrite He.
    split; [close_trace | reflexivity].
  - intros bytes e He Hp. unfold events_of, outcome_of. unfold_ops.
    rewrite He, Hp. split; [close_trace | reflexivity].
Qed.

Lemma getAllAssets_logs_or_throws_witness :
  (evaluateTransaction (world_of tomas_then_tom 7) "GetAllAssets" = Ok "payload" /\
   JSON_parse (world_of tomas_then_tom 7) "payload" = Ok tomas_then_tom) /\
  events_of (getAllAssets (world_of tomas_then_tom 7)) initial_state =
    [getAllAssets_banner; Evaluate "GetAllAssets";
     Log [LStr "*** Result:"; LVal tomas_then_tom]] /\
  outcome_of (getAllAssets (world_of tomas_then_tom 7)) initial_state = Ok tt.
Proof.
  split; [split; reflexivity|].
  exact (proj1 (getAllAssets_logs_or_throws (world_of tomas_then_tom 7)
                  initial_state) "payload" tomas_then_tom eq_refl eq_refl).
Defined.

(** X3.  The two reading operations never change the ledger: in every
    world, whatever the ledger answers and however the records are shaped,
    [readAssetByName] and [getAllAssets] submit no transaction. *)
Theorem reads_never_submit (w : World) (name : string) (st : State) :
  submitted (readAssetByName w name) st = [] /\
  submitted (getAllAssets w) st = [].
Proof.
  split; apply filter_none, adds_events_of;
    [apply adds_only_readAssetByName | apply adds_only_getAllAssets];
    reflexivity.
Qed.

(** X4.  A query for a name that occurs in no owner visits the whole
    collection: it logs one line per entry, in order, prints no record, and
    returns normally. *)
Theorem query_without_match_scans_everything (w : World) (name : string)
    (st : State) (result : jsval) :
  ledger_returns w result ->
  Forall (no_match name) (for_in result) ->
  events_of (readAssetByName w name) st =
    query_banner :: Evaluate "GetAllAssets" :: map scan_line (for_in result) /\
  outcome_of (readAssetByName w name) st = Ok tt.
Proof.
  intros Hl Hall. unfold events_of, outcome_of.
  rewrite (readAssetByName_run _ _ _ _ Hl).
  rewrite <- (app_nil_r (for_in result)) at 1 3.
  rewrite query_scan_skip by assumption.
  cbn [query_scan ret fst snd]. rewrite add_events_app.
  unfold add_events. cbn [trace]. split; [apply skipn_length_app | reflexivity].
Qed.

Lemma query_without_match_scans_everything_witness :
  (ledger_returns (world_of tomas_then_tom 7) tomas_then_tom /\
   Forall (no_match "Cat") (for_in tomas_then_tom)) /\
  events_of (readAssetByName (world_of tomas_then_tom 7) "Cat") initial_state =
    [query_banner; Evaluate "GetAllAssets";
     Log [LStr "0 : Tomas"]; Log [LStr "1 : Tom"]] /\
  outcome_of (readAssetByName (world_of tomas_then_tom 7) "Cat") initial_state =
    Ok tt.
Proof.
  assert (H1 := world_of_returns tomas_then_tom 7).
  assert (H2 : Forall (no_match "Cat") (for_in tomas_then_tom)).
  { repeat constructor; now apply no_match_asset. }
  split; [split; trivial|].
  exact (query_without_match_scans_everything _ "Cat" initial_state
           tomas_then_tom H1 H2).
Defined.

(** ** Voting, in every world *)

(** The three ways a vote can go. *)
Lemma createAssetWithName_cases (w : World) (name : string) (st : State) :
  (events_of (createAssetWithName w name) st =
     [vote_banner; Evaluate "GetAllAssets"] /\
   exists e, outcome_of (createAssetWithName w name) st = Throw e) \/
  (exists result f,
     ledger_returns w result /\ vote_scan (for_in result) name = Ok f /\
     exists_ f = true /\
     events_of (createAssetWithName w name) st =
       vote_banner :: Evaluate "GetAllAssets" ::
       submit_events w "UpdateAsset"
         [assetIdIfExists f; ""; size f; name; ""]
         "*** Transaction committed successfully - update") \/
  (exists result f,
     ledger_returns w result /\ vote_scan (for_in result) name = Ok f /\
     exists_ f = false /\
     events_of (createAssetWithName w name) st =
       vote_banner :: Evaluate "GetAllAssets" ::
       submit_events w "CreateAsset" [drawn w (draws st); ""; "1"; name; ""]
         "*** Transaction committed successfully - creation").
Proof.
  destruct (evaluateTransaction w "GetAllAssets") as [bytes|e] eqn:He.
  2:{ left. destruct (createAssetWithName_evaluate_fails w name st e He).
      eauto. }
  destruct (JSON_parse w bytes) as [result|e] eqn:Hp.
  2:{ left. destruct (createAssetWithName_decode_fails w name st bytes e He Hp).
      eauto. }
  assert (Hl : ledger_returns w result) by (exists bytes; auto).
  destruct (vote_scan (for_in result) name) as [f|e] eqn:Hs.
  2:{ left. destruct (createAssetWithName_scan_fails w name st result e Hl Hs).
      eauto. }
  destruct (exists_ f) eqn:Hx.
  - right; left. exists result, f.
    destruct (createAssetWithName_update w name st result f Hl Hs Hx).
    auto.
  - right; right. exists result, f.
    destruct (createAssetWithName_create w name st result f Hl Hs Hx).
    auto.
Qed.

(** X5.  In every world a vote submits at most one transaction, and every
    transaction it submits is an [UpdateAsset] or a [CreateAsset] whose
    arguments are an identifier, the empty colour, a size, the candidate name
    as owner and the empty appraised value; a [CreateAsset] has size "1" and
    the identifier drawn for it. *)
Theorem vote_submits_one_shaped_transaction (w : World) (name : string)
    (st : State) :
  (List.length (submitted (createAssetWithName w name) st) <= 1)%nat /\
  (forall fn args,
     In (Submit fn args) (events_of (createAssetWithName w name) st) ->
     exists id sz,
       args = [id; ""; sz; name; ""] /\
       (fn = "UpdateAsset" \/
        (fn = "CreateAsset" /\ sz = "1" /\ id = drawn w (draws st)))).
Proof.
  destruct (createAssetWithName_cases w name st)
    as [[He _]|[[result [f [_ [_ [_ He]]]]]|[result [f [_ [_ [_ He]]]]]]].
  - unfold submitted. rewrite He. split; [cbn; lia|].
    intros fn args Hin. cbn [In] in Hin. unfold vote_banner in Hin.
    split_in Hin.
  - rewrite (submitted_cons2 _ _ _ _ _ He) by reflexivity.
    rewrite submit_events_submitted, He. split; [cbn; lia|].
    intros fn args Hin. unfold submit_events in Hin.
    destruct (submitTransaction w "UpdateAsset" _);
      cbn [In] in Hin; unfold vote_banner in Hin; split_in Hin; eauto.
  - rewrite (submitted_cons2 _ _ _ _ _ He) by reflexivity.
    rewrite submit_events_submitted, He. split; [cbn; lia|].
    intros fn args Hin. unfold submit_events in Hin.
    destruct (submitTransaction w "CreateAsset" _);
      cbn [In] in Hin; unfold vote_banner in Hin; split_in Hin;
      eexists _, _; eauto.
Qed.

Lemma vote_submits_one_shaped_transaction_witness :
  In (Submit "CreateAsset" ["asset7"; ""; "1"; "Cat"; ""])
     (events_of (createAssetWithName (world_of tomas_then_tom 7) "Cat")
        initial_state) /\
  exists id sz,
    ["asset7"; ""; "1"; "Cat"; ""] = [id; ""; sz; "Cat"; ""] /\
    ("CreateAsset" = "UpdateAsset" \/
     ("CreateAsset" = "CreateAsset" /\ sz = "1" /\
      id = drawn (world_of tomas_then_tom 7) (draws initial_state))).
Proof.
  assert (Hin : In (Submit "CreateAsset" ["asset7"; ""; "1"; "Cat"; ""])
                  (events_of (createAssetWithName (world_of tomas_then_tom 7) "Cat")
                     initial_state)) by (cbn; tauto).
  split; [exact Hin|].
  exact (proj2 (vote_submits_one_shaped_transaction (world_of tomas_then_tom 7)
                  "Cat" initial_state) _ _ Hin).
Defined.

(** X6.  The size a vote writes follows the type of the matched record's
    [Size]: a safe integer [n] is written as [n + 1], a string [s] as [s]
    followed by "1" (no number is parsed), and a record with no [Size] gets
    "NaN". *)
Theorem update_size_follows_type_of_Size (w : World) (name : string)
    (st : State) (result : jsval) (pre post : list (string * jsval))
    (key : string) (record : jsval) (o id : string) :
  ledger_returns w result ->
  for_in result = (pre ++ (key, record) :: post)%list ->
  Forall (no_match name) pre ->
  owner_of record o -> is_substring name o ->
  get_field record "ID" = Ok (JStr id) ->
  (forall n, safe_integer n -> get_field record "Size" = Ok (JNum n) ->
     submitted (createAssetWithName w name) st =
       [Submit "UpdateAsset" [id; ""; string_of_Z (n + 1); name; ""]]) /\
  (forall s, get_field record "Size" = Ok (JStr s) ->
     submitted (createAssetWithName w name) st =
       [Submit "UpdateAsset" [id; ""; s ++ "1"; name; ""]]) /\
  (get_field record "Size" = Ok JUndefined ->
     submitted (createAssetWithName w name) st =
       [Submit "UpdateAsset" [id; ""; "NaN"; name; ""]]).
Proof.
  intros Hl Hf Hpre Ho Hs Hid.
  assert (H : forall sz size',
    get_field record "Size" = Ok sz -> plus_one_toString sz = Ok size' ->
    submitted (createAssetWithName w name) st =
      [Submit "UpdateAsset" [id; ""; size'; name; ""]]).
  { intros sz size' Hsz Hplus.
    assert (Hscan : vote_scan [(key, record)] name =
              Ok {| exists_ := true; size := size'; assetIdIfExists := id |}).
    { rewrite (vote_scan_hit _ _ _ [] o) by assumption.
      rewrite Hsz. cbn [rbind]. rewrite Hplus. cbn [rbind]. now rewrite Hid. }
    now destruct (vote_first_match w name st result pre post key record o _
                    Hl Hf Hpre Ho Hs Hscan) as [_ [_ H]]. }
  repeat split; intros; eapply H; eauto; reflexivity.
Qed.

Lemma update_size_follows_type_of_Size_witness :
  let record := asset "asset1" "" (JNum 41) "Cat" "" in
  let w := world_of (JArr [record]) 7 in
  (ledger_returns w (JArr [record]) /\
   for_in (JArr [record]) = ([] ++ ("0", record) :: [])%list /\
   Forall (no_match "Cat") [] /\
   owner_of record "Cat" /\ is_substring "Cat" "Cat" /\
   get_field record "ID" = Ok (JStr "asset1") /\
   safe_integer 41 /\
   get_field record "Size" = Ok (JNum 41)) /\
  submitted (createAssetWithName w "Cat") initial_state =
    [Submit "UpdateAsset" ["asset1"; ""; "42"; "Cat"; ""]].
Proof.
  cbv zeta.
  assert (H1 := world_of_returns (JArr [asset "asset1" "" (JNum 41) "Cat" ""]) 7).
  assert (H5 : is_substring "Cat" "Cat") by (exists "", ""; reflexivity).
  assert (H6 : safe_integer 41) by (split; reflexivity).
  split; [repeat split; trivial|].
  exact (proj1 (update_size_follows_type_of_Size _ "Cat" initial_state
           (JArr [asset "asset1" "" (JNum 41) "Cat" ""]) [] [] "0"
           (asset "asset1" "" (JNum 41) "Cat" "") "Cat" "asset1"
           H1 eq_refl (Forall_nil _) eq_refl H5 eq_refl) 41 H6 eq_refl).
Defined.

(** ** Malformed and unusual records *)

Lemma vote_throws (w : World) (name : string) (st : State) (result : jsval)
    (e : exn) :
  ledger_returns w result ->
  vote_scan (for_in result) name = Throw e ->
  submitted (createAssetWithName w name) st = [] /\
  outcome_of (createAssetWithName w name) st = Throw e.
Proof.
  intros Hl Hs.
  destruct (createAssetWithName_scan_fails w name st result e Hl Hs) as [He Ho].
  split; [|exact Ho]. unfold submitted. now rewrite He.
Qed.

(** X7.  A record without an owner stops both scans when they reach it.  If
    the entries before it do not match and the record is [null], or its
    [Owner] is missing or [null], the vote throws a TypeError and submits
    nothing, and the query throws a TypeError, whatever records follow (a
    later record that matches is never reached). *)
Theorem record_without_owner_stops_the_scan (w : World) (name : string)
    (st : State) (result : jsval) (pre post : list (string * jsval))
    (key : string) (record : jsval) :
  ledger_returns w result ->
  for_in result = (pre ++ (key, record) :: post)%list ->
  Forall (no_match name) pre ->
  record = JNull \/ get_field record "Owner" = Ok JUndefined \/
    get_field record "Owner" = Ok JNull ->
  submitted (createAssetWithName w name) st = [] /\
  outcome_of (createAssetWithName w name) st = Throw TypeError /\
  outcome_of (readAssetByName w name) st = Throw TypeError.
Proof.
  intros Hl Hf Hpre Hrec.
  assert (Hv : vote_scan (for_in result) name = Throw TypeError).
  { rewrite Hf, vote_scan_skip by assumption. cbn [vote_scan].
    destruct Hrec as [->|[H|H]]; [reflexivity | |]; now rewrite H. }
  destruct (vote_throws w name st result _ Hl Hv) as [H1 H2].
  repeat split; trivial.
  unfold outcome_of. rewrite (readAssetByName_run _ _ _ _ Hl), Hf.
  rewrite query_scan_skip by assumption. cbn [query_scan].
  unfold bind, lift, console_log, emit.
  destruct Hrec as [->|[H|H]]; [reflexivity | |]; now rewrite H.
Qed.

Lemma record_without_owner_stops_the_scan_witness :
  let coll := JArr [JObj [("ID", JStr "asset9")]; tom4_record] in
  let w := world_of coll 7 in
  (ledger_returns w coll /\
   for_in coll =
     ([] ++ ("0", JObj [("ID", JStr "asset9")]) :: [("1", tom4_record)])%list /\
   Forall (no_match "Tom") [] /\
   get_field (JObj [("ID", JStr "asset9")]) "Owner" = Ok JUndefined) /\
  submitted (createAssetWithName w "Tom") initial_state = [] /\
  outcome_of (createAssetWithName w "Tom") initial_state = Throw TypeError /\
  outcome_of (readAssetByName w "Tom") initial_state = Throw TypeError.
Proof.
  cbv zeta.
  assert (H1 := world_of_returns
                  (JArr [JObj [("ID", JStr "asset9")]; tom4_record]) 7).
  split; [repeat split; trivial|].
  exact (record_without_owner_stops_the_scan _ "Tom" initial_state
           (JArr [JObj [("ID", JStr "asset9")]; tom4_record]) []
           [("1", tom4_record)] "0" (JObj [("ID", JStr "asset9")])
           H1 eq_refl (Forall_nil _) (or_intror (or_introl eq_refl))).
Defined.

(** X8.  A matching record whose [ID] is missing or [null] makes the vote
    throw a TypeError after the size was computed: nothing is submitted,
    neither an update nor a creation. *)
Theorem matched_record_without_ID_throws (w : World) (name : string)
    (st : State) (result : jsval) (pre post : list (string * jsval))
    (key : string) (record : jsval) (o : string) (n : Z) :
  ledger_returns w result ->
  for_in result = (pre ++ (key, record) :: post)%list ->
  Forall (no_match name) pre ->
  owner_of record o -> is_substring name o ->
  get_field record "Size" = Ok (JNum n) ->
  get_field record "ID" = Ok JUndefined \/ get_field record "ID" = Ok JNull ->
  submitted (createAssetWithName w name) st = [] /\
  outcome_of (createAssetWithName w name) st = Throw TypeError.
Proof.
  intros Hl Hf Hpre Ho Hs Hsz Hid.
  apply (vote_throws w name st result _ Hl).
  rewrite Hf, vote_scan_skip by assumption.
  rewrite (vote_scan_hit _ _ _ post o) by assumption.
  rewrite Hsz. cbn [rbind plus_one_toString].
  destruct Hid as [H|H]; now rewrite H.
Qed.

Lemma matched_record_without_ID_throws_witness :
  let record := JObj [("Owner", JStr "Tom"); ("Size", JNum 1)] in
  let w := world_of (JArr [record]) 7 in
  (ledger_returns w (JArr [record]) /\
   for_in (JArr [record]) = ([] ++ ("0", record) :: [])%list /\
   Forall (no_match "Tom") [] /\
   owner_of record "Tom" /\ is_substring "Tom" "Tom" /\
   get_field record "Size" = Ok (JNum 1) /\
   get_field record "ID" = Ok JUndefined) /\
  submitted (createAssetWithName w "Tom") initial_state = [] /\
  outcome_of (createAssetWithName w "Tom") initial_state = Throw TypeError.
Proof.
  cbv zeta.
  assert (H1 := world_of_returns
                  (JArr [JObj [("Owner", JStr "Tom"); ("Size", JNum 1)]]) 7).
  assert (H5 : is_substring "Tom" "Tom") by (exists "", ""; reflexivity).
  split; [repeat split; trivial|].
  exact (matched_record_without_ID_throws _ "Tom" initial_state
           (JArr [JObj [("Owner", JStr "Tom"); ("Size", JNum 1)]]) [] [] "0"
           (JObj [("Owner", JStr "Tom"); ("Size", JNum 1)]) "Tom" 1
           H1 eq_refl (Forall_nil _) eq_refl H5 eq_refl (or_introl eq_refl)).
Defined.

(** X9.  A record whose [Owner] is a number is treated differently by the two
    scans: the vote converts the owner with [toString] and matches on its
    decimal digits, while the query calls [indexOf] on the number itself and
    throws a TypeError.  (The owner and the size are safe integers, whose
    digits and successor the model has exactly.) *)
Theorem numeric_owner_votes_but_query_throws (w : World) (name : string)
    (st : State) (result : jsval) (pre post : list (string * jsval))
    (key : string) (record : jsval) (n k : Z) (id : string) :
  ledger_returns w result ->
  for_in result = (pre ++ (key, record) :: post)%list ->
  Forall (no_match name) pre ->
  safe_integer n -> safe_integer k ->
  get_field record "Owner" = Ok (JNum n) ->
  is_substring name (string_of_Z n) ->
  get_field record "Size" = Ok (JNum k) ->
  get_field record "ID" = Ok (JStr id) ->
  submitted (createAssetWithName w name) st =
    [Submit "UpdateAsset" [id; ""; string_of_Z (k + 1); name; ""]] /\
  outcome_of (readAssetByName w name) st = Throw TypeError.
Proof.
  intros Hl Hf Hpre _ _ Ho Hs Hsz Hid. split.
  - assert (Hv : vote_scan (for_in result) name =
        Ok {| exists_ := true; size := string_of_Z (k + 1);
              assetIdIfExists := id |}).
    { rewrite Hf, vote_scan_skip by assumption. cbn [vote_scan].
      rewrite Ho. cbn [rbind toString ToString].
      apply indexOf_test in Hs. rewrite Hs, Hsz, Hid. reflexivity. }
    destruct (createAssetWithName_update w name st result _ Hl Hv eq_refl)
      as [He _].
    rewrite (submitted_cons2 _ _ _ _ _ He) by reflexivity.
    apply submit_events_submitted.
  - unfold outcome_of. rewrite (readAssetByName_run _ _ _ _ Hl), Hf.
    rewrite query_scan_skip by assumption. cbn [query_scan].
    unfold bind, lift, console_log, emit. now rewrite Ho.
Qed.

Lemma numeric_owner_votes_but_query_throws_witness :
  let record := JObj [("ID", JStr "asset3"); ("Owner", JNum 2024);
                      ("Size", JNum 6)] in
  let w := world_of (JArr [record]) 7 in
  (ledger_returns w (JArr [record]) /\
   for_in (JArr [record]) = ([] ++ ("0", record) :: [])%list /\
   Forall (no_match "02") [] /\
   safe_integer 2024 /\ safe_integer 6 /\
   get_field record "Owner" = Ok (JNum 2024) /\
   is_substring "02" (string_of_Z 2024) /\
   get_field record "Size" = Ok (JNum 6) /\
   get_field record "ID" = Ok (JStr "asset3")) /\
  submitted (createAssetWithName w "02") initial_state =
    [Submit "UpdateAsset" ["asset3"; ""; "7"; "02"; ""]] /\
  outcome_of (readAssetByName w "02") initial_state = Throw TypeError.
Proof.
  cbv zeta.
  assert (H1 := world_of_returns
    (JArr [JObj [("ID", JStr "asset3"); ("Owner", JNum 2024);
                 ("Size", JNum 6)]]) 7).
  assert (H5 : is_substring "02" (string_of_Z 2024))
    by (exists "2", "4"; reflexivity).
  assert (Hn : safe_integer 2024) by (split; reflexivity).
  assert (Hk : safe_integer 6) by (split; reflexivity).
  split; [repeat split; trivial; try exact (proj1 Hn); try exact (proj2 Hn);
          try exact (proj1 Hk); exact (proj2 Hk)|].
  exact (numeric_owner_votes_but_query_throws _ "02" initial_state
    (JArr [JObj [("ID", JStr "asset3"); ("Owner", JNum 2024);
                 ("Size", JNum 6)]]) [] [] "0"
    (JObj [("ID", JStr "asset3"); ("Owner", JNum 2024); ("Size", JNum 6)])
    2024 6 "asset3" H1 eq_refl (Forall_nil _) Hn Hk eq_refl H5 eq_refl eq_refl).
Defined.

(** ** Well-formed collections *)

(** A collection of well-formed records either holds no match or splits at
    its first match. *)
Lemma scan_dichotomy (name : string) (entries : list (string * jsval)) :
  Forall well_formed entries ->
  Forall (no_match name) entries \/
  exists pre key record post o,
    entries = (pre ++ (key, record) :: post)%list /\
    Forall (no_match name) pre /\
    owner_of record o /\ is_substring name o /\ well_formed (key, record).
Proof.
  induction 1 as [|[key record] rest Hwf _ IH]; [left; constructor|].
  destruct Hwf as [o [id [n [Ho [Hid Hsz]]]]]. cbn [snd] in *.
  destruct (negb (indexOf o name =? -1)) eqn:E.
  - right. exists [], key, record, rest, o.
    apply indexOf_test in E. repeat split; trivial.
    exists o, id, n. auto.
  - apply indexOf_test_false in E.
    assert (Hno : no_match name (key, record)) by (exists o; auto).
    destruct IH as [IH|[pre [k [r [post [o' [-> [Hpre H']]]]]]]].
    + left. now constructor.
    + right. exists ((key, record) :: pre), k, r, post, o'.
      split; [reflexivity|]. split; [now constructor | exact H'].
Qed.

(** X10.  On a collection whose records all carry a string owner, a string
    identifier and a numeric size, a vote never throws before it submits: it
    submits exactly one transaction, and ends as that submission ends. *)
Theorem well_formed_ledger_gets_one_transaction (w : World) (name : string)
    (st : State) (result : jsval) :
  ledger_returns w result ->
  Forall well_formed (for_in result) ->
  exists fn args,
    submitted (createAssetWithName w name) st = [Submit fn args] /\
    outcome_of (createAssetWithName w name) st = submitTransaction w fn args.
Proof.
  intros Hl Hwf.
  destruct (scan_dichotomy name _ Hwf)
    as [Hno|[pre [key [record [post [o [Hf [Hpre [Ho [Hs Hr]]]]]]]]]].
  - pose proof (vote_scan_none name _ Hno) as Hscan.
    destruct (createAssetWithName_create w name st result _ Hl Hscan eq_refl)
      as [He [Hout _]].
    eexists _, _. split; [|exact Hout].
    rewrite (submitted_cons2 _ _ _ _ _ He) by reflexivity.
    apply submit_events_submitted.
  - destruct Hr as [o' [id [n [_ [Hid Hsz]]]]]. cbn [snd] in *.
    assert (Hv : vote_scan (for_in result) name =
        Ok {| exists_ := true; size := string_of_Z (n + 1);
              assetIdIfExists := id |}).
    { rewrite Hf, vote_scan_skip by assumption.
      rewrite (vote_scan_hit _ _ _ post o) by assumption.
      now rewrite Hsz, Hid. }
    destruct (createAssetWithName_update w name st result _ Hl Hv eq_refl)
      as [He Hout].
    eexists _, _. split; [|exact Hout].
    rewrite (submitted_cons2 _ _ _ _ _ He) by reflexivity.
    apply submit_events_submitted.
Qed.

Lemma well_formed_asset (key id color : string) (n : Z)
    (owner appraised : string) :
  well_formed (key, asset id color (JNum n) owner appraised).
Proof. exists owner, id, n. repeat split. Qed.

Lemma well_formed_ledger_gets_one_transaction_witness :
  (ledger_returns (world_of tomas_then_tom 7) tomas_then_tom /\
   Forall well_formed (for_in tomas_then_tom)) /\
  exists fn args,
    submitted (createAssetWithName (world_of tomas_then_tom 7) "om")
      initial_state = [Submit fn args] /\
    outcome_of (createAssetWithName (world_of tomas_then_tom 7) "om")
      initial_state = submitTransaction (world_of tomas_then_tom 7) fn args.
Proof.
  assert (H1 := world_of_returns tomas_then_tom 7).
  assert (H2 : Forall well_formed (for_in tomas_then_tom)).
  { repeat constructor; apply well_formed_asset. }
  split; [split; trivial|].
  exact (well_formed_ledger_gets_one_transaction _ "om" initial_state
           tomas_then_tom H1 H2).
Defined.

(** ** Start-up *)

Lemma displayInputParameters_run (cfg : Config) (st : State) :
  displayInputParameters cfg st = (add_events st (parameter_lines cfg), Ok tt).
Proof.
  unfold displayInputParameters, bind, console_log, emit, add_events,
    parameter_lines.
  cbn [assetId draws trace]. rewrite <- !app_assoc. reflexivity.
Qed.

Lemma getFirstDirFileName_run (h : Host) (dirPath file : string)
    (rest : list string) (st : State) :
  fs_readdir h dirPath = Ok (file :: rest) -> file <> "" ->
  getFirstDirFileName h dirPath st = (st, Ok (path_join h dirPath file)).
Proof.
  intros Hd Hne. unfold getFirstDirFileName, bind, lift, ret. rewrite Hd.
  apply String.eqb_neq in Hne. now rewrite Hne.
Qed.

Lemma getFirstDirFileName_empty (h : Host) (dirPath : string) (st : State) :
  fs_readdir h dirPath = Ok [] ->
  getFirstDirFileName h dirPath st =
  (st, Throw (Error ("No files in directory: " ++ dirPath))).
Proof.
  intros Hd. unfold getFirstDirFileName, bind, lift. now rewrite Hd.
Qed.

Lemma newGrpcConnection_run (h : Host) (cfg : Config) (cert : string)
    (st : State) :
  fs_readFile h (tlsCertPath cfg) = Ok cert -> createSsl h cert = Ok tt ->
  newGrpcConnection h cfg st =
  (add_events st [OpenClient (peerEndpoint cfg)], Ok tt).
Proof.
  intros Hf Hs. unfold newGrpcConnection, bind, lift, emit, add_events.
  now rewrite Hf, Hs.
Qed.

(** X11.  When the TLS certificate of the peer cannot be read, the run ends in
    the handler of [main().catch]: the parameters were printed, no client was
    opened, no operation was started whatever the arguments, the error is
    reported and the exit code is 1. *)
Theorem unreadable_tls_certificate_fails_the_run (h : Host) (cfg : Config)
    (argv : list string) (st0 : State) (e : exn) :
  fs_readFile h (tlsCertPath cfg) = Throw e ->
  exitCode (program h cfg argv st0) = Some 1 /\
  console_error (program h cfg argv st0) = [failed_line e] /\
  tasks (program h cfg argv st0) = [] /\
  all_events (program h cfg argv st0) =
    (trace st0 ++ parameter_lines cfg)%list.
Proof.
  intros Hf. unfold all_events, program, main, bind.
  rewrite displayInputParameters_run.
  unfold newGrpcConnection, bind, lift. rewrite Hf.
  cbn [exitCode console_error tasks main_state flat_map add_events trace].
  rewrite app_nil_r. repeat split.
Qed.

Lemma unreadable_tls_certificate_fails_the_run_witness :
  let h := host_on (fun _ => Throw (FsError "ENOENT")) (fun _ => Ok ["user.pem"])
             (fun _ => Ok tt) unreachable in
  fs_readFile h (tlsCertPath default_config) = Throw (FsError "ENOENT") /\
  exitCode (program h default_config ["node"; "app.js"; "vote=Tom"]
              initial_state) = Some 1 /\
  console_error (program h default_config ["node"; "app.js"; "vote=Tom"]
                   initial_state) = [failed_line (FsError "ENOENT")] /\
  tasks (program h default_config ["node"; "app.js"; "vote=Tom"]
           initial_state) = [] /\
  all_events (program h default_config ["node"; "app.js"; "vote=Tom"]
                initial_state) =
    (trace initial_state ++ parameter_lines default_config)%list.
Proof.
  cbv zeta. split; [reflexivity|].
  exact (unreadable_tls_certificate_fails_the_run
           (host_on (fun _ => Throw (FsError "ENOENT"))
              (fun _ => Ok ["user.pem"]) (fun _ => Ok tt) unreachable)
           default_config ["node"; "app.js"; "vote=Tom"] initial_state
           (FsError "ENOENT") eq_refl).
Defined.

(** X12.  When the certificate directory is empty, the run fails with
    "No files in directory: " followed by that directory and exit code 1.  By
    then the gRPC client has been opened; it is not closed, the gateway is
    never connected and no operation is started. *)
Theorem empty_certificate_directory_fails_the_run (h : Host) (cfg : Config)
    (argv : list string) (st0 : State) (cert : string) :
  fs_readFile h (tlsCertPath cfg) = Ok cert ->
  createSsl h cert = Ok tt ->
  fs_readdir h (certDirectoryPath cfg) = Ok [] ->
  exitCode (program h cfg argv st0) = Some 1 /\
  console_error (program h cfg argv st0) =
    [failed_line (Error ("No files in directory: " ++ certDirectoryPath cfg))] /\
  tasks (program h cfg argv st0) = [] /\
  all_events (program h cfg argv st0) =
    (trace st0 ++ parameter_lines cfg ++ [OpenClient (peerEndpoint cfg)])%list.
Proof.
  intros Hf Hs Hd. unfold all_events, program, main, bind.
  rewrite displayInputParameters_run.
  rewrite (newGrpcConnection_run h cfg cert _ Hf Hs).
  unfold newIdentity, bind. rewrite (getFirstDirFileName_empty h _ _ Hd).
  cbn [exitCode console_error tasks main_state flat_map add_events trace].
  rewrite app_nil_r, <- app_assoc. repeat split.
Qed.

Lemma empty_certificate_directory_fails_the_run_witness :
  let h := host_on (fun _ => Ok "pem")
             (fun d => if String.eqb d "/org1/signcerts" then Ok []
                       else Ok ["key.pem"])
             (fun _ => Ok tt) unreachable in
  (fs_readFile h (tlsCertPath default_config) = Ok "pem" /\
   createSsl h "pem" = Ok tt /\
   fs_readdir h (certDirectoryPath default_config) = Ok []) /\
  exitCode (program h default_config ["node"; "app.js"] initial_state) =
    Some 1 /\
  console_error (program h default_config ["node"; "app.js"] initial_state) =
    [failed_line (Error "No files in directory: /org1/signcerts")] /\
  tasks (program h default_config ["node"; "app.js"] initial_state) = [] /\
  all_events (program h default_config ["node"; "app.js"] initial_state) =
    (trace initial_state ++ parameter_lines default_config ++
     [OpenClient "localhost:7051"])%list.
Proof.
  cbv zeta. split; [repeat split|].
  exact (empty_certificate_directory_fails_the_run
           (host_on (fun _ => Ok "pem")
              (fun d => if String.eqb d "/org1/signcerts" then Ok []
                        else Ok ["key.pem"])
              (fun _ => Ok tt) unreachable)
           default_config ["node"; "app.js"] initial_state "pem"
           eq_refl eq_refl eq_refl).
Defined.

Lemma main_until_key (h : Host) (cfg : Config) (argv : list string)
    (st0 : State) (pem : string) :
  credentials_in_place h cfg pem ->
  main h cfg argv st0 =
  match createPrivateKey h pem with
  | Throw e =>
      (add_events st0 (parameter_lines cfg ++ [OpenClient (peerEndpoint cfg)]),
       Throw e)
  | Ok _ =>
      let st := add_events st0
                  (parameter_lines cfg ++
                   [OpenClient (peerEndpoint cfg);
                    ConnectGateway connect_options]) in
      (st, Ok (forEach h (fresh st) 0 argv))
  end.
Proof.
  intros [[cert [Hf Hs]] [cf [cr [creds [Hcd [Hcf Hcr]]]]]
          [kf [kr [Hkd [Hkf Hkr]]]]].
  unfold main, bind. rewrite displayInputParameters_run.
  rewrite (newGrpcConnection_run h cfg cert _ Hf Hs).
  unfold newIdentity, newSigner, bind, lift, ret.
  rewrite (getFirstDirFileName_run h _ cf cr _ Hcd Hcf), Hcr.
  rewrite (getFirstDirFileName_run h _ kf kr _ Hkd Hkf), Hkr.
  rewrite add_events_app.
  destruct (createPrivateKey h pem) as [[]|e]; [|reflexivity].
  unfold emit, try_finally, ret, add_events. cbn [assetId draws trace].
  rewrite <- !app_assoc. reflexivity.
Qed.

(** X13.  When the credentials are in place but the private key does not
    parse, the run fails with the parser's error and exit code 1: the client
    is open, the gateway is not connected, no operation is started. *)
Theorem invalid_private_key_fails_the_run (h : Host) (cfg : Config)
    (argv : list string) (st0 : State) (pem : string) (e : exn) :
  credentials_in_place h cfg pem ->
  createPrivateKey h pem = Throw e ->
  exitCode (program h cfg argv st0) = Some 1 /\
  console_error (program h cfg argv st0) = [failed_line e] /\
  tasks (program h cfg argv st0) = [] /\
  all_events (program h cfg argv st0) =
    (trace st0 ++ parameter_lines cfg ++ [OpenClient (peerEndpoint cfg)])%list.
Proof.
  intros Hc Hk. unfold all_events, program.
  rewrite (main_until_key h cfg argv st0 pem Hc), Hk.
  cbn [exitCode console_error tasks main_state flat_map add_events trace].
  rewrite app_nil_r. repeat split.
Qed.

(** X14.  When the credentials are in place and the key parses, [main]
    prints the nine parameters, opens the client, connects the gateway once,
    in that order, and resolves: no exit code is assigned and nothing is
    printed by the handler, whatever the arguments and whatever the started
    operations do. *)
Theorem start_up_succeeds_with_credentials (h : Host) (cfg : Config)
    (argv : list string) (st0 : State) (pem : string) :
  credentials_in_place h cfg pem ->
  createPrivateKey h pem = Ok tt ->
  exitCode (program h cfg argv st0) = None /\
  console_error (program h cfg argv st0) = [] /\
  trace (main_state (program h cfg argv st0)) =
    (trace st0 ++ parameter_lines cfg ++
     [OpenClient (peerEndpoint cfg); ConnectGateway connect_options])%list.
Proof.
  intros Hc Hk. unfold program.
  rewrite (main_until_key h cfg argv st0 pem Hc), Hk. cbv zeta.
  cbn [exitCode console_error main_state add_events trace]. repeat split.
Qed.

Lemma host_with_credentials (w : World) :
  credentials_in_place (host_with w) default_config "pem".
Proof.
  constructor.
  - exists "pem". split; reflexivity.
  - exists "user.pem", [], "pem". repeat split. discriminate.
  - exists "user.pem", []. repeat split. discriminate.
Qed.

Lemma host_on_credentials (parseKey : string -> result unit) (w : World) :
  credentials_in_place
    (host_on (fun _ => Ok "pem") (fun _ => Ok ["user.pem"]) parseKey w)
    default_config "pem".
Proof.
  constructor.
  - exists "pem". split; reflexivity.
  - exists "user.pem", [], "pem". repeat split. discriminate.
  - exists "user.pem", []. repeat split. discriminate.
Qed.

Lemma invalid_private_key_fails_the_run_witness :
  let h := host_on (fun _ => Ok "pem") (fun _ => Ok ["user.pem"])
             (fun _ => Throw (Error "unsupported key")) unreachable in
  (credentials_in_place h default_config "pem" /\
   createPrivateKey h "pem" = Throw (Error "unsupported key")) /\
  exitCode (program h default_config ["node"; "app.js"; "initialize=true"]
              initial_state) = Some 1 /\
  console_error (program h default_config ["node"; "app.js"; "initialize=true"]
                   initial_state) = [failed_line (Error "unsupported key")] /\
  tasks (program h default_config ["node"; "app.js"; "initialize=true"]
           initial_state) = [] /\
  all_events (program h default_config ["node"; "app.js"; "initialize=true"]
                initial_state) =
    (trace initial_state ++ parameter_lines default_config ++
     [OpenClient (peerEndpoint default_config)])%list.
Proof.
  cbv zeta.
  assert (Hc := host_on_credentials (fun _ => Throw (Error "unsupported key"))
                  unreachable).
  split; [split; [exact Hc | reflexivity]|].
  exact (invalid_private_key_fails_the_run _ default_config
           ["node"; "app.js"; "initialize=true"] initial_state "pem"
           (Error "unsupported key") Hc eq_refl).
Defined.

Lemma start_up_succeeds_with_credentials_witness :
  (credentials_in_place (host_with unreachable) default_config "pem" /\
   createPrivateKey (host_with unreachable) "pem" = Ok tt) /\
  exitCode (program (host_with unreachable) default_config
              ["node"; "app.js"; "vote=Tom"] initial_state) = None /\
  console_error (program (host_with unreachable) default_config
                   ["node"; "app.js"; "vote=Tom"] initial_state) = [] /\
  trace (main_state (program (host_with unreachable) default_config
                       ["node"; "app.js"; "vote=Tom"] initial_state)) =
    (trace initial_state ++ parameter_lines default_config ++
     [OpenClient (peerEndpoint default_config);
      ConnectGateway connect_options])%list.
Proof.
  assert (Hc := host_with_credentials unreachable).
  split; [split; [exact Hc | reflexivity]|].
  exact (start_up_succeeds_with_credentials _ default_config
           ["node"; "app.js"; "vote=Tom"] initial_state "pem" Hc eq_refl).
Defined.

(** X15.  [newIdentity] pairs the configured MSP identifier with the bytes of
    the first file of the certificate directory, and changes nothing; when
    that file cannot be read it throws the error of the read. *)
Theorem newIdentity_reads_first_certificate (h : Host) (cfg : Config)
    (st : State) (file : string) (rest : list string) :
  fs_readdir h (certDirectoryPath cfg) = Ok (file :: rest) ->
  file <> "" ->
  newIdentity h cfg st =
  (st,
   match fs_readFile h (path_join h (certDirectoryPath cfg) file) with
   | Ok credentials => Ok (mspId cfg, credentials)
   | Throw e => Throw e
   end).
Proof.
  intros Hd Hne. unfold newIdentity, bind, lift, ret.
  rewrite (getFirstDirFileName_run h _ file rest _ Hd Hne).
  destruct (fs_readFile h _); reflexivity.
Qed.

Lemma newIdentity_reads_first_certificate_witness :
  (fs_readdir (host_with unreachable) (certDirectoryPath default_config) =
     Ok ["user.pem"] /\ "user.pem" <> "") /\
  newIdentity (host_with unreachable) default_config initial_state =
    (initial_state, Ok ("Org1MSP", "pem")).
Proof.
  assert (Hne : "user.pem" <> "") by discriminate.
  split; [split; [reflexivity | exact Hne]|].
  exact (newIdentity_reads_first_certificate (host_with unreachable)
           default_config initial_state "user.pem" [] eq_refl Hne).
Defined.

(** ** Dispatch *)

Lemma contains_vote (name : string) : contains ("vote=" ++ name) "vote=" = true.
Proof. destruct name; reflexivity. Qed.

Lemma contains_query (name : string) :
  contains ("query=" ++ name) "query=" = true.
Proof. destruct name; reflexivity. Qed.

(** X16.  An argument made of [vote=] and a name starts a vote for exactly
    that name, an argument made of [query=] and a name starts a query for
    exactly that name; an argument that contains none of the four markers
    (the path of node, the path of the script) starts no operation: its
    callback resolves without an event. *)
Theorem arguments_start_their_operation (h : Host) (st0 : State) (i : nat)
    (name : string) :
  In (spawn i (Started OpVote) st0
        (createAssetWithName (task_world h i OpVote) name))
     (callback h st0 i ("vote=" ++ name)) /\
  In (spawn i (Started OpQuery) st0
        (readAssetByName (task_world h i OpQuery) name))
     (callback h st0 i ("query=" ++ name)) /\
  (forall val,
     contains val "query=" = false -> contains val "vote=" = false ->
     contains val "getAllVotes=true" = false ->
     contains val "initialize=true" = false ->
     callback h st0 i val =
       [{| task_index := i; task_kind_of := Callback;
           task_state := st0; task_outcome := Ok tt |}]).
Proof.
  split; [|split].
  - unfold callback. rewrite contains_vote. apply in_or_app. right.
    apply in_or_app. left. left. reflexivity.
  - unfold callback. rewrite contains_query. apply in_or_app. left. left.
    reflexivity.
  - intros val Hq Hv Hg Hi. unfold callback, callback_body.
    rewrite Hq, Hv, Hg, Hi. reflexivity.
Qed.

Lemma arguments_start_their_operation_witness :
  (contains "/usr/bin/node" "query=" = false /\
   contains "/usr/bin/node" "vote=" = false /\
   contains "/usr/bin/node" "getAllVotes=true" = false /\
   contains "/usr/bin/node" "initialize=true" = false) /\
  callback (host_with unreachable) initial_state 0 "/usr/bin/node" =
    [{| task_index := 0; task_kind_of := Callback;
        task_state := initial_state; task_outcome := Ok tt |}].
Proof.
  split; [repeat split|].
  exact (proj2 (proj2 (arguments_start_their_operation (host_with unreachable)
                         initial_state 0 ""))
           "/usr/bin/node" eq_refl eq_refl eq_refl eq_refl).
Defined.

(** X17.  Within one argument the listing comes before the seeding: when the
    argument asks for [getAllVotes=true] and the evaluation throws, the
    callback rejects with that error and submits nothing, also when the same
    argument asks for [initialize=true]. *)
Theorem failed_listing_skips_the_seeding (h : Host) (i : nat) (val : string)
    (st : State) (e : exn) :
  contains val "getAllVotes=true" = true ->
  evaluateTransaction (task_world h i OpGetAll) "GetAllAssets" = Throw e ->
  outcome_of (callback_body h i val) st = Throw e /\
  submitted (callback_body h i val) st = [].
Proof.
  intros Hg He. unfold submitted, events_of, outcome_of, callback_body, when.
  rewrite Hg. unfold_ops.
  destruct (contains val "query="), (contains val "vote=");
    cbn [assetId draws trace fst snd]; rewrite He;
    cbn [assetId draws trace fst snd]; rewrite <- ?app_assoc;
    rewrite skipn_length_app; split; reflexivity.
Qed.

Lemma failed_listing_skips_the_seeding_witness :
  (contains "getAllVotes=true,initialize=true" "getAllVotes=true" = true /\
   evaluateTransaction (task_world (host_with unreachable) 2 OpGetAll)
     "GetAllAssets" = Throw (GatewayError "UNAVAILABLE")) /\
  outcome_of (callback_body (host_with unreachable) 2
                "getAllVotes=true,initialize=true") initial_state =
    Throw (GatewayError "UNAVAILABLE") /\
  submitted (callback_body (host_with unreachable) 2
               "getAllVotes=true,initialize=true") initial_state = [].
Proof.
  split; [split; reflexivity|].
  exact (failed_listing_skips_the_seeding (host_with unreachable) 2
           "getAllVotes=true,initialize=true" initial_state
           (GatewayError "UNAVAILABLE") eq_refl eq_refl).
Defined.

Lemma spawn_fields (i : nat) (k : task_kind) (st0 : State) (m : M unit) :
  task_index (spawn i k st0 m) = i /\ task_kind_of (spawn i k st0 m) = k.
Proof. unfold spawn. destruct (m st0). split; reflexivity. Qed.

Lemma forEach_callbacks (h : Host) (st0 : State) (argv : list string)
    (i : nat) :
  map task_index (filter is_callback (forEach h st0 i argv)) =
  seq i (List.length argv).
Proof.
  revert i. induction argv as [|val rest IH]; intros i; [reflexivity|].
  cbn [forEach List.length seq]. rewrite filter_app, map_app, IH.
  unfold callback. rewrite !filter_app.
  assert (Hs : forall o m, is_callback (spawn i (Started o) st0 m) = false).
  { intros o m. unfold is_callback.
    now rewrite (proj2 (spawn_fields i (Started o) st0 m)). }
  assert (Hc : forall m, is_callback (spawn i Callback st0 m) = true).
  { intros m. unfold is_callback.
    now rewrite (proj2 (spawn_fields i Callback st0 m)). }
  destruct (contains val "query="), (contains val "vote=");
    cbn [filter app]; rewrite ?Hs, Hc; cbn [app map];
    now rewrite (proj1 (spawn_fields i Callback st0 _)).
Qed.

(** X18.  After a start-up that succeeds, every element of [process.argv] is
    looked at, the paths of node and of the script included: the run leaves
    exactly one callback promise per element, in order of the indices. *)
Theorem one_callback_per_argument (h : Host) (cfg : Config)
    (argv : list string) (st0 : State) :
  exitCode (program h cfg argv st0) = None ->
  map task_index (filter is_callback (tasks (program h cfg argv st0))) =
  seq 0 (List.length argv).
Proof.
  unfold program. rewrite main_argv.
  destruct (main h cfg [] st0) as [st' [ts|e]]; cbn [exitCode tasks];
    [|discriminate].
  intros _. apply forEach_callbacks.
Qed.

Lemma one_callback_per_argument_witness :
  exitCode (program (host_with unreachable) default_config
              ["node"; "app.js"; "vote=Tom"] initial_state) = None /\
  map task_index
    (filter is_callback
       (tasks (program (host_with unreachable) default_config
                 ["node"; "app.js"; "vote=Tom"] initial_state))) =
  [0; 1; 2]%nat.
Proof.
  split; [reflexivity|].
  exact (one_callback_per_argument (host_with unreachable) default_config
           ["node"; "app.js"; "vote=Tom"] initial_state eq_refl).
Defined.

(** X19.  [main] itself never calls the contract: the transactions of a run
    are evaluated and submitted only by the operations it starts.  So a run
    whose start-up fails (exit code 1) evaluates and submits nothing. *)
Theorem failed_start_up_never_calls_the_contract (h : Host) (cfg : Config)
    (argv : list string) (st0 : State) :
  trace st0 = [] ->
  filter is_submit (trace (main_state (program h cfg argv st0))) = [] /\
  filter is_evaluate (trace (main_state (program h cfg argv st0))) = [] /\
  (exitCode (program h cfg argv st0) = Some 1 ->
   filter is_submit (all_events (program h cfg argv st0)) = [] /\
   filter is_evaluate (all_events (program h cfg argv st0)) = []).
Proof.
  intros H0.
  assert (Hm : adds_only (fun e => is_submit e = false /\ is_evaluate e = false)
                 (main h cfg argv))
    by (apply adds_only_main; intros; split; reflexivity).
  destruct (Hm st0) as [l [Hl HP]]. rewrite H0 in Hl. cbn [app] in Hl.
  assert (F1 : filter is_submit l = []).
  { apply filter_none. eapply Forall_impl; [|exact HP]. now intros a [H _]. }
  assert (F2 : filter is_evaluate l = []).
  { apply filter_none. eapply Forall_impl; [|exact HP]. now intros a [_ H]. }
  unfold all_events, program.
  destruct (main h cfg argv st0) as [st [ts|e]]; cbn [fst] in Hl;
    cbn [main_state tasks exitCode flat_map]; rewrite ?app_nil_r, Hl.
  - repeat split; trivial; discriminate.
  - repeat split; trivial.
Qed.

Lemma failed_start_up_never_calls_the_contract_witness :
  let h := host_on (fun _ => Ok "pem") (fun _ => Ok [])
             (fun _ => Ok tt) (world_of tomas_then_tom 7) in
  (trace initial_state = [] /\
   exitCode (program h default_config ["node"; "app.js"; "vote=Tom"]
               initial_state) = Some 1) /\
  filter is_submit (all_events (program h default_config
                      ["node"; "app.js"; "vote=Tom"] initial_state)) = [] /\
  filter is_evaluate (all_events (program h default_config
                        ["node"; "app.js"; "vote=Tom"] initial_state)) = [].
Proof.
  cbv zeta. split; [split; reflexivity|].
  exact (proj2 (proj2 (failed_start_up_never_calls_the_contract
           (host_on (fun _ => Ok "pem") (fun _ => Ok []) (fun _ => Ok tt)
              (world_of tomas_then_tom 7))
           default_config ["node"; "app.js"; "vote=Tom"] initial_state
           eq_refl)) eq_refl).
Defined.

(** ** Identifiers *)

Lemma string_of_Z_inj (a b : Z) : string_of_Z a = string_of_Z b -> a = b.
Proof.
  unfold string_of_Z. intros H.
  assert (Hn : forall z, Z.to_int z <> Decimal.Pos Decimal.Nil /\
                         Z.to_int z <> Decimal.Neg Decimal.Nil).
  { intros [|p|p]; cbn; split; try discriminate; intros E;
      inversion E as [E']; now apply Unsigned.to_uint_nonnil in E'. }
  pose proof (NilZero.isi (Z.to_int a) (proj1 (Hn a)) (proj2 (Hn a))) as Ha.
  pose proof (NilZero.isi (Z.to_int b) (proj1 (Hn b)) (proj2 (Hn b))) as Hb.
  rewrite H in Ha. rewrite Ha in Hb. inversion Hb as [E].
  rewrite <- (DecimalZ.of_to a), <- (DecimalZ.of_to b). now rewrite E.
Qed.

Lemma asset_id_inj (a b : Z) :
  "asset" ++ string_of_Z a = "asset" ++ string_of_Z b <-> a = b.
Proof.
  split; [|now intros ->]. intros H. cbn in H. inversion H.
  now apply string_of_Z_inj.
Qed.

(** X20.  Identifiers are not checked for collisions: two generated
    identifiers are equal exactly when the two random draws are equal, so the
    three assets of [initLedger] get pairwise distinct identifiers exactly
    when its three draws are pairwise distinct. *)
Theorem identifiers_collide_exactly_on_equal_draws (w : World) (st : State) :
  (forall w' i j, drawn w i = drawn w' j <->
                  random_draw w i = random_draw w' j) /\
  exists id1 id2 id3,
    submitted (initLedger w) st =
      [Submit "CreateAsset" [id1; ""; "1"; "Tom"; ""];
       Submit "CreateAsset" [id2; ""; "2"; "Cat"; ""];
       Submit "CreateAsset" [id3; ""; "2"; "Dog"; ""]] /\
    (NoDup [id1; id2; id3] <->
     NoDup [random_draw w (draws st); random_draw w (S (draws st));
            random_draw w (S (S (draws st)))]).
Proof.
  split; [intros w' i j; apply asset_id_inj|].
  exists (drawn w (draws st)), (drawn w (S (draws st))),
         (drawn w (S (S (draws st)))).
  split.
  - unfold submitted. rewrite initLedger_events.
    cbn [filter is_submit initLedger_banner].
    rewrite !filter_app, !seed_events_submitted. reflexivity.
  - change [drawn w (draws st); drawn w (S (draws st));
            drawn w (S (S (draws st)))]
      with (map (fun r => "asset" ++ string_of_Z r)
              [random_draw w (draws st); random_draw w (S (draws st));
               random_draw w (S (S (draws st)))]).
    split; [apply NoDup_map_inv|].
    apply NoDup_map_NoDup_ForallPairs. intros a b _ _. apply asset_id_inj.
Qed.

(** ** Payloads with nothing to scan *)

(** X21.  When the decoded payload has nothing to enumerate ([null], a
    number, a boolean, an empty string, array or object), neither scan
    throws: the vote creates the asset of the candidate, and the query logs
    no entry and returns normally. *)
Theorem empty_payload_creates_and_finds_nothing (w : World) (name : string)
    (st : State) (result : jsval) :
  ledger_returns w result ->
  nothing_to_scan result ->
  submitted (createAssetWithName w name) st =
    [Submit "CreateAsset" [drawn w (draws st); ""; "1"; name; ""]] /\
  events_of (readAssetByName w name) st =
    [query_banner; Evaluate "GetAllAssets"] /\
  outcome_of (readAssetByName w name) st = Ok tt.
Proof.
  intros Hl Hn. unfold nothing_to_scan in Hn. split; [|split].
  - assert (Hscan : vote_scan (for_in result) name =
              Ok {| exists_ := false; size := ""; assetIdIfExists := "" |})
      by now rewrite Hn.
    destruct (createAssetWithName_create w name st result _ Hl Hscan eq_refl)
      as [He _].
    rewrite (submitted_cons2 _ _ _ _ _ He) by reflexivity.
    apply submit_events_submitted.
  - unfold events_of. rewrite (readAssetByName_run _ _ _ _ Hl), Hn.
    cbn [query_scan ret fst]. unfold add_events. cbn [trace].
    apply skipn_length_app.
  - unfold outcome_of. rewrite (readAssetByName_run _ _ _ _ Hl), Hn.
    reflexivity.
Qed.

Lemma empty_payload_creates_and_finds_nothing_witness :
  (ledger_returns (world_of JNull 7) JNull /\ nothing_to_scan JNull) /\
  submitted (createAssetWithName (world_of JNull 7) "Tom") initial_state =
    [Submit "CreateAsset" ["asset7"; ""; "1"; "Tom"; ""]] /\
  events_of (readAssetByName (world_of JNull 7) "Tom") initial_state =
    [query_banner; Evaluate "GetAllAssets"] /\
  outcome_of (readAssetByName (world_of JNull 7) "Tom") initial_state = Ok tt.
Proof.
  assert (H1 := world_of_returns JNull 7).
  split; [split; [exact H1 | reflexivity]|].
  exact (empty_payload_creates_and_finds_nothing _ "Tom" initial_state JNull
           H1 eq_refl).
Defined.

(** ** Update or create *)

(** X22.  On a collection of well-formed records the vote updates exactly
    when the name occurs in the owner of some record, and creates exactly
    when it occurs in none. *)
Theorem vote_updates_iff_some_owner_matches (w : World) (name : string)
    (st : State) (result : jsval) :
  ledger_returns w result ->
  Forall well_formed (for_in result) ->
  (Exists (has_match name) (for_in result) ->
   exists id sz,
     submitted (createAssetWithName w name) st =
       [Submit "UpdateAsset" [id; ""; sz; name; ""]]) /\
  (~ Exists (has_match name) (for_in result) ->
   submitted (createAssetWithName w name) st =
     [Submit "CreateAsset" [drawn w (draws st); ""; "1"; name; ""]]).
Proof.
  intros Hl Hwf.
  destruct (scan_dichotomy name _ Hwf)
    as [Hno|[pre [key [record [post [o [Hf [Hpre [Ho [Hs Hr]]]]]]]]]].
  - assert (Hnone : ~ Exists (has_match name) (for_in result)).
    { rewrite Exists_exists. intros [entry [Hin [o [Ho Hs]]]].
      rewrite Forall_forall in Hno.
      destruct (Hno entry Hin) as [o' [Ho' Hn']].
      unfold owner_of in Ho, Ho'. rewrite Ho in Ho'. inversion Ho'. subst.
      contradiction. }
    split; [intros H; now elim Hnone|]. intros _.
    pose proof (vote_scan_none name _ Hno) as Hscan.
    destruct (createAssetWithName_create w name st result _ Hl Hscan eq_refl)
      as [He _].
    rewrite (submitted_cons2 _ _ _ _ _ He) by reflexivity.
    apply submit_events_submitted.
  - assert (Hsome : Exists (has_match name) (for_in result)).
    { rewrite Hf. apply Exists_app. right. left. exists o. auto. }
    split; [intros _|intros H; now elim H].
    destruct Hr as [o' [id [n [_ [Hid Hsz]]]]]. cbn [snd] in *.
    assert (Hv : vote_scan (for_in result) name =
        Ok {| exists_ := true; size := string_of_Z (n + 1);
              assetIdIfExists := id |}).
    { rewrite Hf, vote_scan_skip by assumption.
      rewrite (vote_scan_hit _ _ _ post o) by assumption.
      now rewrite Hsz, Hid. }
    destruct (createAssetWithName_update w name st result _ Hl Hv eq_refl)
      as [He _].
    exists id, (string_of_Z (n + 1)).
    rewrite (submitted_cons2 _ _ _ _ _ He) by reflexivity.
    apply submit_events_submitted.
Qed.

Lemma vote_updates_iff_some_owner_matches_witness :
  (ledger_returns (world_of tomas_then_tom 7) tomas_then_tom /\
   Forall well_formed (for_in tomas_then_tom) /\
   Exists (has_match "mas") (for_in tomas_then_tom)) /\
  exists id sz,
    submitted (createAssetWithName (world_of tomas_then_tom 7) "mas")
      initial_state = [Submit "UpdateAsset" [id; ""; sz; "mas"; ""]].
Proof.
  assert (H1 := world_of_returns tomas_then_tom 7).
  assert (H2 : Forall well_formed (for_in tomas_then_tom)).
  { repeat constructor; apply well_formed_asset. }
  assert (H3 : Exists (has_match "mas") (for_in tomas_then_tom)).
  { left. exists "Tomas". split; [reflexivity|]. exists "To", "". reflexivity. }
  split; [repeat split; trivial|].
  exact (proj1 (vote_updates_iff_some_owner_matches _ "mas" initial_state
                  tomas_then_tom H1 H2) H3).
Defined.
